(** * external-mdns: record synthesis, reverse zones and dispatch

    A shallow embedding of the record synthesizer ([constructRecords],
    [reverseAddress]), the publish / retract dispatcher of [run] and the
    ingress source adapter, together with the properties the design
    document states about them.

    Go strings are byte strings and are modelled by [string]; bytes and
    machine integers are modelled by [Z] with conversions written out. *)

From Stdlib Require Import ZArith List Bool Lia.
From Stdlib Require Import Strings.String Strings.Ascii Numbers.DecimalString.
Import ListNotations.

Local Open Scope string_scope.
Local Open Scope list_scope.
Local Open Scope Z_scope.

(** String concatenation (Go's [+] on strings); [++] is kept for lists. *)
Infix "+++" := String.append (right associativity, at level 60).

(* ================================================================== *)
(** * Part I: definitions *)
(* ================================================================== *)

(** ** Small helpers on Go strings *)

Definition byteOf (c : ascii) : Z := Z.of_nat (nat_of_ascii c).

Definition isDigit (c : ascii) : bool :=
  (byteOf "0" <=? byteOf c) && (byteOf c <=? byteOf "9").

Definition isEmpty (s : string) : bool :=
  match s with EmptyString => true | String _ _ => false end.

(** [s[k]] for a string constant used as a lookup table; the index is
    always in range at the call sites below (Go would panic otherwise). *)
Definition charAt (tbl : string) (k : Z) : ascii :=
  match String.get (Z.to_nat k) tbl with
  | Some c => c
  | None => "?"%char
  end.

(** [fmt.Sprintf("%d", n)] for a Go [int]. *)
Definition fmt_d (n : Z) : string := NilZero.string_of_int (Z.to_int n).

(** Go's truncating conversions. *)
Definition uint8 (v : Z) : Z := v mod 256.
Definition uint32 (v : Z) : Z := v mod 4294967296.

(** ** The parts of Go's [net] / [net/netip] packages the program calls *)

Module net.

(** A [net.IP] is a byte slice. *)
Definition IP := list Z.

Definition digits : string := "0123456789abcdef".

(** [netip.appendDecimal]: shortest decimal form of a [uint8]. *)
Definition appendDecimal (b : string) (x : Z) : string :=
  let b := if 100 <=? x then b +++ String (charAt digits (x / 100)) "" else b in
  let b := if 10 <=? x then b +++ String (charAt digits (x / 10 mod 10)) "" else b in
  b +++ String (charAt digits (x mod 10)) "".

(** [netip.appendHex]: shortest lower-case hex form of a [uint16]. *)
Definition appendHex (b : string) (x : Z) : string :=
  let b := if 4096 <=? x then b +++ String (charAt digits (Z.shiftr x 12)) "" else b in
  let b := if 256 <=? x
           then b +++ String (charAt digits (Z.land (Z.shiftr x 8) 15)) "" else b in
  let b := if 16 <=? x
           then b +++ String (charAt digits (Z.land (Z.shiftr x 4) 15)) "" else b in
  b +++ String (charAt digits (Z.land x 15)) "".

(** The loop of [netip.parseIPv4Fields] over the remaining input [s].
    [prev] is [s[i-1]] ([None] when [i = 0]), [fields] holds
    [fields[0..pos)], so that [pos = length fields].  The result is
    the state [(val, fields)] at loop exit, or [None] for an error. *)
Fixpoint parseIPv4Fields_loop (s : string) (prev : option ascii)
         (val digLen : Z) (fields : list Z) : option (Z * list Z) :=
  match s with
  | EmptyString => Some (val, fields)
  | String c s' =>
      if isDigit c then
        if (digLen =? 1) && (val =? 0) then None
        else
          let val := val * 10 + byteOf c - byteOf "0" in
          let digLen := digLen + 1 in
          if 255 <? val then None
          else parseIPv4Fields_loop s' (Some c) val digLen fields
      else if Ascii.eqb c "." then
        if match prev with
           | None => true
           | Some p => Ascii.eqb p "."
           end || isEmpty s'
        then None
        else if (List.length fields =? 3)%nat then None
        else parseIPv4Fields_loop s' (Some c) 0 0 (fields ++ [uint8 val])
      else None
  end.

Definition parseIPv4Fields (s : string) : option (list Z) :=
  match parseIPv4Fields_loop s None 0 0 [] with
  | None => None
  | Some (val, fields) =>
      if (List.length fields <? 3)%nat then None
      else Some (fields ++ [uint8 val])
  end.

(** [netip.parseIPv4]. *)
Definition parseIPv4 (s : string) : option (list Z) := parseIPv4Fields s.

(** The hexadecimal group scanner inside [netip.parseIPv6]: consumes
    hex digits of [s] starting at offset [off] with accumulator [acc];
    returns [(off, acc, rest)] where [rest = s[off:]], or [None] when a
    group has more than four digits or overflows. *)
Fixpoint hexGroup (s : string) (off : Z) (acc : Z) : option (Z * Z * string) :=
  match s with
  | EmptyString => Some (off, acc, s)
  | String c s' =>
      let b := byteOf c in
      let next :=
        if (byteOf "0" <=? b) && (b <=? byteOf "9")
        then Some (uint32 (Z.shiftl acc 4 + (b - byteOf "0")))
        else if (byteOf "a" <=? b) && (b <=? byteOf "f")
        then Some (uint32 (Z.shiftl acc 4 + (b - byteOf "a" + 10)))
        else if (byteOf "A" <=? b) && (b <=? byteOf "F")
        then Some (uint32 (Z.shiftl acc 4 + (b - byteOf "A" + 10)))
        else None in
      match next with
      | None => Some (off, acc, s)
      | Some acc =>
          if 3 <? off then None
          else if 65535 <? acc then None
          else hexGroup s' (off + 1) acc
      end
  end.

(** State of [parseIPv6] when its main loop is left: the unread input,
    the bytes [ip[0..i)] written so far and the ellipsis position
    ([-1] when there is none). *)
Record v6state := mkV6 { v6rest : string; v6ip : list Z; v6ellipsis : Z }.

Definition startsWith (c : ascii) (s : string) : bool :=
  match s with String d _ => Ascii.eqb d c | EmptyString => false end.

(** The main loop of [netip.parseIPv6].  Each iteration that does not
    leave the loop adds two bytes, so with [i = length ip] and
    [i + 2 * groups = 16] the guard [i < 16] is [groups <> 0]. *)
Fixpoint parseIPv6_loop (groups : nat) (s : string) (ip : list Z)
         (ellipsis : Z) : option v6state :=
  match groups with
  | O => Some (mkV6 s ip ellipsis)
  | S groups =>
      let i := Z.of_nat (List.length ip) in
      match hexGroup s 0 0 with
      | None => None
      | Some (off, acc, rest) =>
          if off =? 0 then None
          else if startsWith "." rest then
            if (ellipsis <? 0) && negb (i =? 12) then None
            else if 16 <? i + 4 then None
            else
              match parseIPv4Fields s with
              | None => None
              | Some v4 => Some (mkV6 "" (ip ++ v4) ellipsis)
              end
          else
            let ip := ip ++ [uint8 (Z.shiftr acc 8); uint8 acc] in
            let i := i + 2 in
            match rest with
            | EmptyString => Some (mkV6 rest ip ellipsis)
            | String c rest1 =>
                if negb (Ascii.eqb c ":") then None
                else if isEmpty rest1 then None
                else if startsWith ":" rest1 then
                  if 0 <=? ellipsis then None
                  else
                    let rest2 := match rest1 with
                                 | String _ r => r
                                 | EmptyString => rest1
                                 end in
                    if isEmpty rest2 then Some (mkV6 rest2 ip i)
                    else parseIPv6_loop groups rest2 ip i
                else parseIPv6_loop groups rest1 ip ellipsis
            end
      end
  end.

Fixpoint contains (c : ascii) (s : string) : bool :=
  match s with
  | EmptyString => false
  | String d s' => Ascii.eqb d c || contains c s'
  end.

(** [netip.parseIPv6], restricted to what [net.ParseIP] keeps: an
    input with a zone (a [%]) is either rejected by [parseIPv6] or
    yields an address with a zone, which [net.parseIP] rejects. *)
Definition parseIPv6 (s : string) : option (list Z) :=
  if contains "%" s then None
  else
    let start :=
      match s with
      | String ":" (String ":" s2) => (s2, 0, isEmpty s2)
      | _ => (s, -1, false)
      end in
    let '(s, ellipsis, onlyEllipsis) := start in
    if onlyEllipsis then Some (repeat 0 16)
    else
      match parseIPv6_loop 8 s [] ellipsis with
      | None => None
      | Some st =>
          if negb (isEmpty (v6rest st)) then None
          else
            let i := Z.of_nat (List.length (v6ip st)) in
            if i <? 16 then
              if v6ellipsis st <? 0 then None
              else
                let e := Z.to_nat (v6ellipsis st) in
                let n := Z.to_nat (16 - i) in
                Some (firstn e (v6ip st) ++ repeat 0 n ++ skipn e (v6ip st))
            else if 0 <=? v6ellipsis st then None
            else Some (v6ip st)
      end.

(** The first of ['.'], [':'], ['%'] in the input decides the family
    in [netip.ParseAddr]. *)
Fixpoint firstSep (s : string) : option ascii :=
  match s with
  | EmptyString => None
  | String c s' =>
      if Ascii.eqb c "." || Ascii.eqb c ":" || Ascii.eqb c "%"
      then Some c else firstSep s'
  end.

Definition v4InV6Prefix : list Z := repeat 0 10 ++ [255; 255].

(** [net.IPv4(a, b, c, d)]: the 16-byte form of an IPv4 address. *)
Definition IPv4 (a b c d : Z) : IP := v4InV6Prefix ++ [a; b; c; d].

(** [net.ParseIP]: [netip.ParseAddr] followed by [As16]. *)
Definition ParseIP (s : string) : option IP :=
  match firstSep s with
  | Some "."%char =>
      match parseIPv4 s with
      | Some v4 => Some (v4InV6Prefix ++ v4)
      | None => None
      end
  | Some ":"%char => parseIPv6 s
  | _ => None
  end.

(** [ip.To4()]; [None] is Go's [nil]. *)
Definition To4 (ip : IP) : option IP :=
  if (List.length ip =? 4)%nat then Some ip
  else if (List.length ip =? 16)%nat
          && forallb (Z.eqb 0) (firstn 10 ip)
          && (nth 10 ip 0 =? 255) && (nth 11 ip 0 =? 255)
       then Some (skipn 12 ip)
       else None.

(** Dotted decimal form of four bytes ([netip.Addr.string4]). *)
Definition string4 (p : list Z) : string :=
  let b := appendDecimal "" (nth 0 p 0) in
  let b := appendDecimal (b +++ ".") (nth 1 p 0) in
  let b := appendDecimal (b +++ ".") (nth 2 p 0) in
  appendDecimal (b +++ ".") (nth 3 p 0).

Definition v6u16 (ip : IP) (i : Z) : Z :=
  Z.lor (Z.shiftl (nth (Z.to_nat (2 * i)) ip 0) 8)
        (nth (Z.to_nat (2 * i + 1)) ip 0).

(** Inner scan of [appendTo6]: first [j >= i] with a non-zero group. *)
Fixpoint zeroRunEnd (fuel : nat) (ip : IP) (j : Z) : Z :=
  match fuel with
  | O => j
  | S fuel =>
      if (j <? 8) && (v6u16 ip j =? 0) then zeroRunEnd fuel ip (j + 1) else j
  end.

(** Search for the longest run of at least two zero groups. *)
Fixpoint longestZeroRun (todo : nat) (ip : IP) (i : Z) (zs ze : Z) : Z * Z :=
  match todo with
  | O => (zs, ze)
  | S todo =>
      let j := zeroRunEnd 8 ip i in
      let l := j - i in
      if (2 <=? l) && (ze - zs <? l)
      then longestZeroRun todo ip (i + 1) i j
      else longestZeroRun todo ip (i + 1) zs ze
  end.

(** Output loop of [appendTo6]; [i] grows at every iteration, so eight
    iterations always suffice. *)
Fixpoint appendTo6_loop (fuel : nat) (ip : IP) (zs ze : Z) (i : Z)
         (ret : string) : string :=
  match fuel with
  | O => ret
  | S fuel =>
      if 8 <=? i then ret
      else if i =? zs then
        let ret := ret +++ "::" in
        let i := ze in
        if 8 <=? i then ret
        else appendTo6_loop fuel ip zs ze (i + 1) (appendHex ret (v6u16 ip i))
      else
        let ret := if 0 <? i then ret +++ ":" else ret in
        appendTo6_loop fuel ip zs ze (i + 1) (appendHex ret (v6u16 ip i))
  end.

Definition string6 (ip : IP) : string :=
  let '(zs, ze) := longestZeroRun 8 ip 0 255 255 in
  appendTo6_loop 8 ip zs ze 0 "".

Definition hexString (ip : IP) : string :=
  fold_left (fun s b => s +++ String (charAt digits (Z.shiftr b 4))
                               (String (charAt digits (Z.land b 15)) ""))
            ip "".

(** [ip.String()], which is what [%s] prints for a [net.IP]. *)
Definition String_ (ip : IP) : string :=
  if (List.length ip =? 0)%nat then "<nil>"
  else if negb (List.length ip =? 4)%nat && negb (List.length ip =? 16)%nat
       then "?" +++ hexString ip
       else match To4 ip with
            | Some p4 => string4 p4
            | None => string6 ip
            end.

End net.

(** ** Packages of the repository that the program reads *)

(** Keys of [cmd/config]; the record holds the values viper returns for
    them, read-only while the service runs. *)
Module config.
Record Settings := {
  ExposeIPv4 : bool;
  ExposeIPv6 : bool;
  RecordTTL : Z;
  WithoutNamespace : bool;
  DefaultNamespace : string
}.
End config.

(** [cmd/mdns/resource]: the entity snapshot sent over the pipeline. *)
Module resource.
Record Resource := {
  SourceType : string;
  Action : string;
  Names : list string;
  Namespace : string;
  IPs : list string;
  WithoutNamespace : bool
}.

(** Modelled from the spec: the three action constants of the
    [resource] package, whose declaration is not part of the sources;
    the design document names the actions Added, Updated, Deleted. *)
Definition Added : string := "Added".
Definition Updated : string := "Updated".
Definition Deleted : string := "Deleted".

Definition withAction (a : string) (r : Resource) : Resource :=
  {| SourceType := SourceType r; Action := a; Names := Names r;
     Namespace := Namespace r; IPs := IPs r;
     WithoutNamespace := WithoutNamespace r |}.

Definition withIPs (ips : list string) (r : Resource) : Resource :=
  {| SourceType := SourceType r; Action := Action r; Names := Names r;
     Namespace := Namespace r; IPs := ips;
     WithoutNamespace := WithoutNamespace r |}.
End resource.

(** ** [cmd]: reverse zones and record synthesis *)

Record DNSError := { Err : string; Name : string }.

Definition hexDigit : string := "0123456789abcdef".

(** The loop [for i := len(ip) - 1; i >= 0; i--] of [reverseAddress];
    [n] is [i + 1]. *)
Fixpoint reverseAddress_loop (ip : net.IP) (n : nat) (buf : string) : string :=
  match n with
  | O => buf
  | S i =>
      let v := nth i ip 0 in
      let buf := buf +++ String (charAt hexDigit (Z.land v 15)) "" in
      let buf := buf +++ "." in
      let buf := buf +++ String (charAt hexDigit (Z.shiftr v 4)) "" in
      let buf := buf +++ "." in
      reverseAddress_loop ip i buf
  end.

Definition reverseAddress (addr : string) : string * option DNSError :=
  match net.ParseIP addr with
  | None => ("", Some {| Err := "unrecognized address"; Name := addr |})
  | Some ip =>
      match net.To4 ip with
      | Some _ =>
          (net.String_ (net.IPv4 (nth 15 ip 0) (nth 14 ip 0)
                                 (nth 13 ip 0) (nth 12 ip 0))
             +++ ".in-addr.arpa.", None)
      | None =>
          let buf := reverseAddress_loop ip (List.length ip) "" in
          (buf +++ "ip6.arpa.", None)
      end
  end.

(** The condition under which the names are also published without the
    namespace. *)
Definition publishUnqualified (cfg : config.Settings)
           (r : resource.Resource) : bool :=
  String.eqb (resource.Namespace r) (config.DefaultNamespace cfg)
  || resource.WithoutNamespace r
  || config.WithoutNamespace cfg
  || String.eqb (resource.SourceType r) "ingress".

(** Body of the first [for _, name := range r.Names] loop. *)
Definition appendQualified (cfg : config.Settings) (r : resource.Resource)
           (recordType : string) (ip : net.IP) (reverseIP : string)
           (records : list string) (name : string) : list string :=
  let ns := resource.Namespace r in
  let ttl := fmt_d (config.RecordTTL cfg) in
  let records := records ++
    [name +++ "." +++ ns +++ ".local. " +++ ttl +++ " IN " +++ recordType
          +++ " " +++ net.String_ ip] in
  let records := records ++
    [name +++ "-" +++ ns +++ ".local. " +++ ttl +++ " IN " +++ recordType
          +++ " " +++ net.String_ ip] in
  if negb (String.eqb reverseIP "") then
    let records := records ++
      [reverseIP +++ " " +++ ttl +++ " IN PTR " +++ name +++ "." +++ ns
                 +++ ".local."] in
    records ++
      [reverseIP +++ " " +++ ttl +++ " IN PTR " +++ name +++ "-" +++ ns
                 +++ ".local."]
  else records.

(** Body of the second loop over [r.Names]. *)
Definition appendUnqualified (cfg : config.Settings)
           (recordType : string) (ip : net.IP) (reverseIP : string)
           (records : list string) (name : string) : list string :=
  let ttl := fmt_d (config.RecordTTL cfg) in
  let records := records ++
    [name +++ ".local. " +++ ttl +++ " IN " +++ recordType
          +++ " " +++ net.String_ ip] in
  if negb (String.eqb reverseIP "") then
    records ++ [reverseIP +++ " " +++ ttl +++ " IN PTR " +++ name +++ ".local."]
  else records.

(** Body of the loop over [r.IPs]; returning [records] unchanged is
    [continue]. *)
Definition constructRecords_step (cfg : config.Settings)
           (r : resource.Resource) (records : list string)
           (resourceIP : string) : list string :=
  match net.ParseIP resourceIP with
  | None => records
  | Some ip =>
      let reverseIP := fst (reverseAddress resourceIP) in
      let recordType :=
        match net.To4 ip with
        | Some _ => if negb (config.ExposeIPv4 cfg) then None else Some "A"
        | None => if negb (config.ExposeIPv6 cfg) then None else Some "AAAA"
        end in
      match recordType with
      | None => records
      | Some recordType =>
          let records :=
            fold_left (appendQualified cfg r recordType ip reverseIP)
                      (resource.Names r) records in
          if publishUnqualified cfg r then
            fold_left (appendUnqualified cfg recordType ip reverseIP)
                      (resource.Names r) records
          else records
      end
  end.

Definition constructRecords (cfg : config.Settings)
           (r : resource.Resource) : list string :=
  fold_left (constructRecords_step cfg r) (resource.IPs r) [].

(** ** Vocabulary of the design document for record lines *)

(** The three host name forms. *)
Definition dotHost (name ns : string) : string := name +++ "." +++ ns +++ ".local.".
Definition hyphenHost (name ns : string) : string := name +++ "-" +++ ns +++ ".local.".
Definition bareHost (name : string) : string := name +++ ".local.".

(** Record lines ["<owner> <ttl> IN <type> <rdata>"]. *)
Definition addressRecord (host : string) (ttl : Z) (rtype rdata : string) : string :=
  host +++ " " +++ fmt_d ttl +++ " IN " +++ rtype +++ " " +++ rdata.
Definition pointerRecord (zone : string) (ttl : Z) (host : string) : string :=
  zone +++ " " +++ fmt_d ttl +++ " IN PTR " +++ host.

(** The records of one name at one address: the namespace-qualified
    ones and the unqualified ones, in emission order. *)
Definition qualifiedBlock (ttl : Z) (ns rtype rdata zone name : string) : list string :=
  [ addressRecord (dotHost name ns) ttl rtype rdata;
    addressRecord (hyphenHost name ns) ttl rtype rdata;
    pointerRecord zone ttl (dotHost name ns);
    pointerRecord zone ttl (hyphenHost name ns) ].

Definition unqualifiedBlock (ttl : Z) (rtype rdata zone name : string) : list string :=
  [ addressRecord (bareHost name) ttl rtype rdata;
    pointerRecord zone ttl (bareHost name) ].

(** Address families as the program tells them apart: an address whose
    [To4] is not nil is IPv4, any other parsed address is IPv6. *)
Inductive family := V4 | V6.

Definition familyOf (ip : net.IP) : family :=
  match net.To4 ip with Some _ => V4 | None => V6 end.

Definition exposed (cfg : config.Settings) (f : family) : bool :=
  match f with V4 => config.ExposeIPv4 cfg | V6 => config.ExposeIPv6 cfg end.

Definition recordTypeOf (f : family) : string :=
  match f with V4 => "A" | V6 => "AAAA" end.

(** The entries of [ips] that parse and whose family is exposed, with
    their parsed form. *)
Definition publishable (cfg : config.Settings) (resourceIP : string) : option net.IP :=
  match net.ParseIP resourceIP with
  | Some ip => if exposed cfg (familyOf ip) then Some ip else None
  | None => None
  end.


(** All records of one entry of [ips]: for each name its qualified
    block, followed, if [unq] holds, by the unqualified block of each
    name. *)
Definition recordsOfAddress (cfg : config.Settings) (r : resource.Resource)
           (unq : bool) (resourceIP : string) : list string :=
  match publishable cfg resourceIP with
  | None => []
  | Some ip =>
      let ttl := config.RecordTTL cfg in
      let rtype := recordTypeOf (familyOf ip) in
      let rdata := net.String_ ip in
      let zone := fst (reverseAddress resourceIP) in
      flat_map (qualifiedBlock ttl (resource.Namespace r) rtype rdata zone)
               (resource.Names r)
      ++ (if unq
          then flat_map (unqualifiedBlock ttl rtype rdata zone) (resource.Names r)
          else [])
  end.

(** The reverse zone each family lives under. *)
Definition zoneSuffix (f : family) : string :=
  match f with V4 => ".in-addr.arpa." | V6 => "ip6.arpa." end.

Definition sameFamily (f g : family) : bool :=
  match f, g with V4, V4 | V6, V6 => true | _, _ => false end.

Definition otherFamily (f : family) : family :=
  match f with V4 => V6 | V6 => V4 end.

(** Whether an entry of [ips] parses to an address of family [f]. *)
Definition ofFamily (f : family) (resourceIP : string) : bool :=
  match net.ParseIP resourceIP with
  | Some ip => sameFamily (familyOf ip) f
  | None => false
  end.

(** The policy and the snapshot of the worked example of the design
    document, with the default TTL of the [record-ttl] flag. *)
Definition exampleSettings : config.Settings :=
  {| config.ExposeIPv4 := true; config.ExposeIPv6 := false;
     config.RecordTTL := 120; config.WithoutNamespace := false;
     config.DefaultNamespace := "default" |}.

Definition exampleSnapshot : resource.Resource :=
  {| resource.SourceType := "service"; resource.Action := resource.Added;
     resource.Names := ["foo"]; resource.Namespace := "kube-system";
     resource.IPs := ["10.0.0.5"]; resource.WithoutNamespace := false |}.

(** The worked example moved to the default namespace, and a dual-stack
    variant of it. *)
Definition defaultSnapshot : resource.Resource :=
  {| resource.SourceType := "service"; resource.Action := resource.Added;
     resource.Names := ["foo"]; resource.Namespace := "default";
     resource.IPs := ["10.0.0.5"]; resource.WithoutNamespace := false |}.

Definition dualStackSnapshot : resource.Resource :=
  {| resource.SourceType := "service"; resource.Action := resource.Added;
     resource.Names := ["foo"]; resource.Namespace := "kube-system";
     resource.IPs := ["fd00::5"; "10.0.0.5"]; resource.WithoutNamespace := false |}.

(** Dotted decimal text ["a.b.c.d"] of four octets, each in its
    shortest decimal form. *)
Definition decimal (x : Z) : string := net.appendDecimal "" x.

Definition dotted (a b c d : Z) : string :=
  decimal a +++ "." +++ decimal b +++ "." +++ decimal c +++ "." +++ decimal d.

Definition octet (x : Z) : Prop := 0 <= x < 256.

Definition digitChar (n : Z) : ascii := charAt net.digits n.

(** The decimal form of an octet is one to three digit characters whose
    value, read from the left, is the octet, and it has no leading zero
    unless it is the single digit of its value. *)
Inductive decimalDigits : Z -> string -> Prop :=
| decimal1 x : 0 <= x < 10 -> decimalDigits x (String (digitChar x) "")
| decimal2 d1 d0 :
    1 <= d1 < 10 -> 0 <= d0 < 10 ->
    decimalDigits (d1 * 10 + d0) (String (digitChar d1) (String (digitChar d0) ""))
| decimal3 d2 d1 d0 :
    1 <= d2 < 10 -> 0 <= d1 < 10 -> 0 <= d0 < 10 ->
    (d2 * 10 + d1) * 10 + d0 < 256 ->
    decimalDigits ((d2 * 10 + d1) * 10 + d0)
      (String (digitChar d2) (String (digitChar d1) (String (digitChar d0) ""))).

(** The text read so far for the field the IPv4 parser is in, against
    its accumulator [val] and digit count [digLen]. *)
Definition fieldRead (cur : string) (val digLen : Z) : Prop :=
  (cur = "" /\ val = 0 /\ digLen = 0)
  \/ (cur = decimal val /\ octet val /\ digLen = Z.of_nat (String.length cur)).

(** The text of completed fields: each in decimal, followed by a dot. *)
Fixpoint dottedFields (octets : list Z) : string :=
  match octets with
  | [] => ""
  | x :: octets => decimal x +++ "." +++ dottedFields octets
  end.

(** The 32 nibbles of a 16-byte address, high nibble of each byte
    first, and the label text of a list of nibbles: one hexadecimal
    digit and a dot for each. *)
Definition nibbles (ip : net.IP) : list Z :=
  flat_map (fun b => [b / 16; b mod 16]) ip.

Definition nibble (n : Z) : Prop := 0 <= n < 16.

Fixpoint nibbleLabels (ns : list Z) : string :=
  match ns with
  | [] => ""
  | n :: ns => String (charAt hexDigit n) (String "." (nibbleLabels ns))
  end.

(** ** [cmd]: the publish / retract dispatcher and the consumer loop *)

Section Dispatcher.

(** The external responder ([cmd/mdns], not part of the sources): some
    state and two operations that may fail. *)
Variable Responder : Type.
Variable mdns_Publish : string -> Responder -> Responder * option string.
Variable mdns_UnPublish : string -> Responder -> Responder * option string.

(** A call made to the responder. *)
Inductive call :=
| CallPublish (rr : string)
| CallUnPublish (rr : string).

(** The process as far as the dispatcher is concerned: the responder
    and the calls made to it so far, oldest first. *)
Record process := { responder : Responder; calls : list call }.

(** What a step leaves behind: a process that goes on, or one that the
    call of [lg.Fatal] has ended.  zap's [Fatal] writes the entry and
    exits; the package-level [lg] that [publishRecord] and
    [unpublishRecord] use is never assigned ([run] declares a [lg] of
    its own), so the call panics on a nil logger instead.  Either way
    nothing of the program runs after it. *)
Inductive outcome :=
| Continue (p : process)
| Fatal (p : process).

Definition processOf (o : outcome) : process :=
  match o with Continue p => p | Fatal p => p end.

Definition andThen (o : outcome) (k : process -> outcome) : outcome :=
  match o with Continue p => k p | Fatal p => Fatal p end.

Definition publishRecord (rr : string) (p : process) : outcome :=
  let (resp, err) := mdns_Publish rr (responder p) in
  let p := {| responder := resp; calls := calls p ++ [CallPublish rr] |} in
  match err with
  | Some _ => Fatal p
  | None => Continue p
  end.

Definition unpublishRecord (rr : string) (p : process) : outcome :=
  let (resp, err) := mdns_UnPublish rr (responder p) in
  let p := {| responder := resp; calls := calls p ++ [CallUnPublish rr] |} in
  match err with
  | Some _ => Fatal p
  | None => Continue p
  end.

(** The loop [for _, record := range constructRecords(advertiseResource)]
    of [run], for a resource whose action is [action]. *)
Fixpoint dispatch (action : string) (records : list string)
         (p : process) : outcome :=
  match records with
  | [] => Continue p
  | record :: rest =>
      if String.eqb record "" then dispatch action rest p
      else if String.eqb action resource.Added then
        andThen (publishRecord record p) (dispatch action rest)
      else if String.eqb action resource.Deleted then
        andThen (unpublishRecord record p) (dispatch action rest)
      else dispatch action rest p
  end.

(** The consumer loop of [run] on the resources it receives from
    [notifyMdns], in order of arrival, until the stop signal. *)
Fixpoint run (cfg : config.Settings) (received : list resource.Resource)
         (p : process) : outcome :=
  match received with
  | [] => Continue p
  | advertiseResource :: rest =>
      andThen (dispatch (resource.Action advertiseResource)
                        (constructRecords cfg advertiseResource) p)
              (run cfg rest)
  end.

End Dispatcher.

Arguments responder {Responder} p.
Arguments calls {Responder} p.
Arguments Continue {Responder} p.
Arguments Fatal {Responder} p.
Arguments processOf {Responder} o.
Arguments andThen {Responder} o k.
Arguments publishRecord {Responder} mdns_Publish rr p.
Arguments unpublishRecord {Responder} mdns_UnPublish rr p.
Arguments dispatch {Responder} mdns_Publish mdns_UnPublish action records p.
Arguments run {Responder} mdns_Publish mdns_UnPublish cfg received p.

(** ** [cmd/source]: the ingress adapter *)

(** The fields of the Kubernetes objects the adapter reads. *)
Module v1.
Record IngressRule := { Host : string }.
Record IngressLoadBalancerIngress := { IP : string }.
Record Ingress := {
  Namespace : string;
  Rules : list IngressRule;              (* Spec.Rules *)
  LoadBalancer : list IngressLoadBalancerIngress (* Status.LoadBalancer.Ingress *)
}.
End v1.

(** An [interface{}] handed over by the informer. *)
Inductive object :=
| IngressObject (ingress : v1.Ingress)
| OtherObject.

(** The two fields of [tld.URL] the adapter reads. *)
Module tld.
Record URL := { Subdomain : string; Domain : string }.
End tld.

(** [strings.HasSuffix]. *)
Definition HasSuffix (s suffix : string) : bool :=
  (String.length suffix <=? String.length s)%nat
  && String.eqb (substring (String.length s - String.length suffix)
                           (String.length suffix) s) suffix.

Section IngressSource.

(** [tld.Parse] of the go-tld library; [None] stands for an error. *)
Variable tld_Parse : string -> option tld.URL.

(** Body of the loop over [ingress.Spec.Rules]. *)
Definition buildRecords_rule (ingress : v1.Ingress) (action : string)
           (ipFields : list string) (records : list resource.Resource)
           (rule : v1.IngressRule) : list resource.Resource :=
  if String.eqb (v1.Host rule) "" || negb (HasSuffix (v1.Host rule) ".local")
  then records
  else
    let fakeURL := "http://" +++ v1.Host rule in
    match tld_Parse fakeURL with
    | None => records
    | Some parsedHost =>
        let hostname :=
          if negb (String.eqb (tld.Subdomain parsedHost) "")
          then tld.Subdomain parsedHost +++ "." +++ tld.Domain parsedHost
          else tld.Domain parsedHost in
        let advertiseObj :=
          {| resource.SourceType := "ingress";
             resource.Action := action;
             resource.Names := [hostname];
             resource.Namespace := v1.Namespace ingress;
             resource.IPs := ipFields;
             resource.WithoutNamespace := false |} in
        records ++ [advertiseObj]
    end.

Definition buildRecords (obj : object) (action : string)
  : list resource.Resource * option string :=
  match obj with
  | OtherObject => ([], None)
  | IngressObject ingress =>
      let ipFields :=
        fold_left (fun ipFields lb =>
                     if negb (String.eqb (v1.IP lb) "")
                     then ipFields ++ [v1.IP lb] else ipFields)
                  (v1.LoadBalancer ingress) [] in
      if (List.length ipFields =? 0)%nat then ([], None)
      else
        (fold_left (buildRecords_rule ingress action ipFields)
                   (v1.Rules ingress) [], None)
  end.

(** The handlers return the resources they send on [notifyChan], in
    the order of the sends. *)
Definition onAdd (obj : object) : list resource.Resource :=
  match buildRecords obj resource.Added with
  | (_, Some _) => []
  | (advertiseRecords, None) => advertiseRecords
  end.

Definition onDelete (obj : object) : list resource.Resource :=
  match buildRecords obj resource.Deleted with
  | (_, Some _) => []
  | (advertiseRecords, None) => advertiseRecords
  end.

Definition onUpdate (oldObj newObj : object) : list resource.Resource :=
  let oldResources := fst (buildRecords oldObj resource.Updated) in
  let sent := map (resource.withAction resource.Deleted) oldResources in
  let newResources := fst (buildRecords newObj resource.Updated) in
  sent ++ map (resource.withAction resource.Added) newResources.

End IngressSource.

(** ** Vocabulary for the order of calls *)

Definition nonEmpty (records : list string) : list string :=
  filter (fun record => negb (String.eqb record "")) records.

(** The calls the dispatcher makes for the records of a resource with
    action [action], and for a received resource, when no call fails. *)
Definition callsFor (action : string) (records : list string) : list call :=
  if String.eqb action resource.Added
  then map CallPublish (nonEmpty records)
  else if String.eqb action resource.Deleted
       then map CallUnPublish (nonEmpty records)
       else [].

Definition callsOf (cfg : config.Settings) (r : resource.Resource) : list call :=
  callsFor (resource.Action r) (constructRecords cfg r).

Definition isPrefix {A} (p l : list A) : Prop := exists rest, l = p ++ rest.

(** [Merge xs ys zs]: [zs] is an interleaving of [xs] and [ys] that
    keeps the order of each; the arrival order on a channel fed by one
    producer sending [xs] and other producers sending [ys]. *)
Inductive Merge {A} : list A -> list A -> list A -> Prop :=
| merge_done : Merge [] [] []
| merge_left x xs ys zs : Merge xs ys zs -> Merge (x :: xs) ys (x :: zs)
| merge_right y xs ys zs : Merge xs ys zs -> Merge xs (y :: ys) (y :: zs).

(** A responder used in examples: it keeps the table of published
    lines and refuses the one line [refused]. *)
Definition tablePublish (refused rr : string) (table : list string)
  : list string * option string :=
  if String.eqb rr refused then (table, Some "refused") else (table ++ [rr], None).

Definition tableUnPublish (refused rr : string) (table : list string)
  : list string * option string :=
  if String.eqb rr refused then (table, Some "refused")
  else (filter (fun line => negb (String.eqb line rr)) table, None).

(** ** A model of go-tld for private host names *)

Fixpoint stripPrefix (prefix s : string) : option string :=
  match prefix, s with
  | EmptyString, _ => Some s
  | String a prefix, String b s => if Ascii.eqb a b then stripPrefix prefix s else None
  | String _ _, EmptyString => None
  end.

Fixpoint cutAt (stop : ascii -> bool) (s : string) : string :=
  match s with
  | EmptyString => ""
  | String c s => if stop c then "" else String c (cutAt stop s)
  end.

Fixpoint splitOn (sep : ascii) (s : string) : list string :=
  match s with
  | EmptyString => [""]
  | String c s =>
      if Ascii.eqb c sep then "" :: splitOn sep s
      else match splitOn sep s with
           | field :: fields => String c field :: fields
           | [] => [String c ""]
           end
  end.

Fixpoint joinDots (labels : list string) : string :=
  match labels with
  | [] => ""
  | [label] => label
  | label :: labels => label +++ "." +++ joinDots labels
  end.

(** What [tld.Parse] of go-tld returns for the URLs [buildRecords]
    builds, ["http://" + host], when the last label of the host is not
    on the public suffix list (as [local] is not): a URL without host
    is returned with empty fields and no error; otherwise the labels must
    be non-empty and at least two, the domain is the label before the
    last and the subdomain is what precedes it.  User information,
    ports and the characters [url.Parse] rejects are not modelled. *)
Definition goTldParse (s : string) : option tld.URL :=
  match stripPrefix "http://" s with
  | None => None
  | Some rest =>
      let authority :=
        cutAt (fun c => Ascii.eqb c "/" || Ascii.eqb c "?" || Ascii.eqb c "#") rest in
      if String.eqb authority "" then Some {| tld.Subdomain := ""; tld.Domain := "" |}
      else
        let labels := rev (splitOn "." authority) in
        if existsb isEmpty labels then None
        else match labels with
             | _ :: domain :: sub =>
                 Some {| tld.Subdomain := joinDots (rev sub); tld.Domain := domain |}
             | _ => None
             end
  end.

(** Ingress objects used in examples. *)
Definition ingressOf (hosts ips : list string) : object :=
  IngressObject {| v1.Namespace := "web";
                   v1.Rules := map v1.Build_IngressRule hosts;
                   v1.LoadBalancer := map v1.Build_IngressLoadBalancerIngress ips |}.

(** The name derived from a parsed host. *)
Definition hostnameOf (parsedHost : tld.URL) : string :=
  if negb (String.eqb (tld.Subdomain parsedHost) "")
  then tld.Subdomain parsedHost +++ "." +++ tld.Domain parsedHost
  else tld.Domain parsedHost.

(** What a resource built from a rule of [ingress] looks like. *)
Definition builtFrom (tld_Parse : string -> option tld.URL)
           (ingress : v1.Ingress) (action : string)
           (ipFields : list string) (r : resource.Resource) : Prop :=
  exists rule parsedHost,
    In rule (v1.Rules ingress)
    /\ v1.Host rule <> ""
    /\ HasSuffix (v1.Host rule) ".local" = true
    /\ tld_Parse ("http://" +++ v1.Host rule) = Some parsedHost
    /\ r = {| resource.SourceType := "ingress";
              resource.Action := action;
              resource.Names := [hostnameOf parsedHost];
              resource.Namespace := v1.Namespace ingress;
              resource.IPs := ipFields;
              resource.WithoutNamespace := false |}.

(** ** [cmd]: the source list flag value *)

(** [k8sSource] is a [[]string]; [Set] returns the updated slice and the
    error, which is always nil. *)
Definition k8sSource := list string.

Definition k8sSource_Set (s : k8sSource) (value : string)
  : k8sSource * option string :=
  if String.eqb value "ingress" || String.eqb value "service"
  then (s ++ [value], None)
  else (s, None).

(** Successive calls of [Set], as the flag parser makes them for a
    repeated flag. *)
Definition k8sSource_SetAll (s : k8sSource) (values : list string) : k8sSource :=
  fold_left (fun s value => fst (k8sSource_Set s value)) values s.

Definition validSource (value : string) : bool :=
  String.eqb value "ingress" || String.eqb value "service".

(** ** [cmd]: starting the watchers *)

(** A watcher [run] creates and starts in a goroutine of its own. *)
Inductive watcher :=
| IngressWatcher (namespace : string)
| ServicesWatcher (namespace : string) (publishInternalServices : bool).

(** The part of [run] between reading the [source] setting and the
    consumer loop, when the [test] setting is off: [None] is the fatal
    exit (no source given, or no Kubernetes client), otherwise the
    watchers started, in order.  [clientCreated] tells whether
    [newK8sClient] returned a client. *)
Definition startWatchers (namespace : string) (publishInternalServices : bool)
           (clientCreated : bool) (sources : list string) : option (list watcher) :=
  if (List.length sources =? 0)%nat then None
  else if negb clientCreated then None
  else
    Some (fold_left
            (fun started src =>
               if String.eqb src "ingress"
               then started ++ [IngressWatcher namespace]
               else if String.eqb src "service"
                    then started ++ [ServicesWatcher namespace publishInternalServices]
                    else started)
            sources []).

Definition watcherSource (w : watcher) : string :=
  match w with
  | IngressWatcher _ => "ingress"
  | ServicesWatcher _ _ => "service"
  end.

(** ** Further vocabulary *)

Definition isPublishable (cfg : config.Settings) (resourceIP : string) : bool :=
  match publishable cfg resourceIP with Some _ => true | None => false end.

(** How many entries of [ips] parse and belong to an exposed family. *)
Definition publishableCount (cfg : config.Settings) (ips : list string) : nat :=
  List.length (filter (isPublishable cfg) ips).

(** The non-empty load-balancer addresses of an ingress, in order. *)
Definition loadBalancerIPs (ingress : v1.Ingress) : list string :=
  nonEmpty (map v1.IP (v1.LoadBalancer ingress)).

(** The parsed host of a rule that contributes a resource. *)
Definition ruleHost (tld_Parse : string -> option tld.URL)
           (rule : v1.IngressRule) : option tld.URL :=
  if String.eqb (v1.Host rule) "" || negb (HasSuffix (v1.Host rule) ".local")
  then None
  else tld_Parse ("http://" +++ v1.Host rule).

Definition snapshotOf (ingress : v1.Ingress) (action : string)
           (parsedHost : tld.URL) : resource.Resource :=
  {| resource.SourceType := "ingress";
     resource.Action := action;
     resource.Names := [hostnameOf parsedHost];
     resource.Namespace := v1.Namespace ingress;
     resource.IPs := loadBalancerIPs ingress;
     resource.WithoutNamespace := false |}.

Definition snapshotsOfRule (tld_Parse : string -> option tld.URL)
           (ingress : v1.Ingress) (action : string)
           (rule : v1.IngressRule) : list resource.Resource :=
  match ruleHost tld_Parse rule with
  | Some parsedHost => [snapshotOf ingress action parsedHost]
  | None => []
  end.

(** A call that the received resources warrant: the publication of a
    record of an Added resource or the retraction of a record of a
    Deleted one. *)
Definition warranted (cfg : config.Settings) (received : list resource.Resource)
           (c : call) : Prop :=
  exists r rr,
    In r received
    /\ In rr (constructRecords cfg r)
    /\ ((resource.Action r = resource.Added /\ c = CallPublish rr)
        \/ (resource.Action r = resource.Deleted /\ c = CallUnPublish rr)).

(* ================================================================== *)
(** * Part II: properties *)
(* ================================================================== *)

(** ** Strings *)

Lemma append_assoc (a b c : string) : (a +++ b) +++ c = a +++ b +++ c.
Proof. induction a as [|x a IH]; simpl; [reflexivity | now rewrite IH]. Qed.

Lemma append_nil_r (a : string) : a +++ "" = a.
Proof. induction a as [|x a IH]; simpl; [reflexivity | now rewrite IH]. Qed.

Lemma append_length (a b : string) :
  String.length (a +++ b) = (String.length a + String.length b)%nat.
Proof. induction a as [|c a IH]; simpl; [reflexivity|]. now rewrite IH. Qed.

Lemma append_nonempty (a b : string) : b <> "" -> String.eqb (a +++ b) "" = false.
Proof.
  intros Hb. apply String.eqb_neq. destruct a; simpl; [assumption | discriminate].
Qed.

(** ** The address parser on sample texts *)

Example ParseIP_dotted_quad : net.ParseIP "10.0.0.5" = Some (net.IPv4 10 0 0 5).
Proof. reflexivity. Qed.

Example ParseIP_leading_zero : net.ParseIP "010.0.0.5" = None.
Proof. reflexivity. Qed.

Example ParseIP_three_fields : net.ParseIP "10.0.5" = None.
Proof. reflexivity. Qed.

Example ParseIP_compressed :
  option_map net.String_ (net.ParseIP "2001:DB8:0:0:0:0:0:1") = Some "2001:db8::1".
Proof. vm_compute. reflexivity. Qed.

Example ParseIP_zone : net.ParseIP "fe80::1%eth0" = None.
Proof. reflexivity. Qed.

Example ParseIP_mapped : net.ParseIP "::ffff:10.0.0.5" = Some (net.IPv4 10 0 0 5).
Proof. vm_compute. reflexivity. Qed.

(** ** Shape of the synthesizer's output *)

Lemma reverseAddress_zone (addr : string) (ip : net.IP) :
  net.ParseIP addr = Some ip ->
  snd (reverseAddress addr) = None
  /\ String.eqb (fst (reverseAddress addr)) "" = false.
Proof.
  intros H. unfold reverseAddress. rewrite H.
  destruct (net.To4 ip); simpl; (split; [reflexivity|]);
    apply append_nonempty; discriminate.
Qed.

Section Shape.

Variable cfg : config.Settings.
Variable r : resource.Resource.

Lemma appendQualified_fold rtype ip zone names records :
  String.eqb zone "" = false ->
  fold_left (appendQualified cfg r rtype ip zone) names records
  = records ++ flat_map (qualifiedBlock (config.RecordTTL cfg) (resource.Namespace r)
                                        rtype (net.String_ ip) zone) names.
Proof.
  intros Hz. revert records.
  induction names as [|name names IH]; intros records; simpl.
  - now rewrite app_nil_r.
  - rewrite IH. unfold appendQualified. rewrite Hz. simpl negb. cbv iota.
    unfold addressRecord, pointerRecord, dotHost, hyphenHost.
    rewrite !append_assoc. simpl. rewrite <- !app_assoc. reflexivity.
Qed.

Lemma appendUnqualified_fold rtype ip zone names records :
  String.eqb zone "" = false ->
  fold_left (appendUnqualified cfg rtype ip zone) names records
  = records ++ flat_map (unqualifiedBlock (config.RecordTTL cfg)
                                          rtype (net.String_ ip) zone) names.
Proof.
  intros Hz. revert records.
  induction names as [|name names IH]; intros records; simpl.
  - now rewrite app_nil_r.
  - rewrite IH. unfold appendUnqualified. rewrite Hz. simpl negb. cbv iota.
    unfold addressRecord, pointerRecord, bareHost.
    rewrite !append_assoc. simpl. rewrite <- !app_assoc. reflexivity.
Qed.

Lemma constructRecords_step_shape records resourceIP :
  constructRecords_step cfg r records resourceIP
  = records ++ recordsOfAddress cfg r (publishUnqualified cfg r) resourceIP.
Proof.
  unfold constructRecords_step, recordsOfAddress, publishable.
  destruct (net.ParseIP resourceIP) as [ip|] eqn:Hp; [|now rewrite app_nil_r].
  destruct (reverseAddress_zone _ _ Hp) as [_ Hz].
  unfold familyOf.
  destruct (net.To4 ip) as [p4|] eqn:H4; simpl exposed.
  - destruct (config.ExposeIPv4 cfg); simpl; [|now rewrite app_nil_r].
    rewrite H4; simpl recordTypeOf.
    destruct (publishUnqualified cfg r).
    + rewrite appendUnqualified_fold, appendQualified_fold by assumption.
      now rewrite app_assoc.
    + rewrite appendQualified_fold by assumption. now rewrite app_nil_r.
  - destruct (config.ExposeIPv6 cfg); simpl; [|now rewrite app_nil_r].
    rewrite H4; simpl recordTypeOf.
    destruct (publishUnqualified cfg r).
    + rewrite appendUnqualified_fold, appendQualified_fold by assumption.
      now rewrite app_assoc.
    + rewrite appendQualified_fold by assumption. now rewrite app_nil_r.
Qed.

Lemma constructRecords_fold ips records :
  fold_left (constructRecords_step cfg r) ips records
  = records ++ flat_map (recordsOfAddress cfg r (publishUnqualified cfg r)) ips.
Proof.
  revert records. induction ips as [|a ips IH]; intros records; simpl.
  - now rewrite app_nil_r.
  - rewrite IH, constructRecords_step_shape. now rewrite app_assoc.
Qed.

Lemma constructRecords_shape :
  constructRecords cfg r
  = flat_map (recordsOfAddress cfg r (publishUnqualified cfg r)) (resource.IPs r).
Proof. unfold constructRecords. now rewrite constructRecords_fold. Qed.


End Shape.

(** ** The worked example of the design document *)

Lemma append_inv_head (a x y : string) : a +++ x = a +++ y -> x = y.
Proof. induction a as [|c a IH]; simpl; intros H; [assumption|]. injection H. exact IH. Qed.

(** C1: the snapshot with name foo, namespace kube-system, address
    10.0.0.5 and a source type other than ingress, under the policy with
    default namespace "default", no global without-namespace flag, IPv4
    enabled, IPv6 disabled and TTL [t], yields exactly the two forward
    and the two PTR records of the qualified names, in this order, and
    neither unqualified record of foo. *)
Theorem constructRecords_kube_system (t : Z) (sourceType action : string) :
  sourceType <> "ingress" ->
  let cfg := {| config.ExposeIPv4 := true; config.ExposeIPv6 := false;
                config.RecordTTL := t; config.WithoutNamespace := false;
                config.DefaultNamespace := "default" |} in
  let r := {| resource.SourceType := sourceType; resource.Action := action;
              resource.Names := ["foo"]; resource.Namespace := "kube-system";
              resource.IPs := ["10.0.0.5"]; resource.WithoutNamespace := false |} in
  constructRecords cfg r
  = [ "foo.kube-system.local. " +++ fmt_d t +++ " IN A 10.0.0.5";
      "foo-kube-system.local. " +++ fmt_d t +++ " IN A 10.0.0.5";
      "5.0.0.10.in-addr.arpa. " +++ fmt_d t +++ " IN PTR foo.kube-system.local.";
      "5.0.0.10.in-addr.arpa. " +++ fmt_d t +++ " IN PTR foo-kube-system.local." ]
  /\ ~ In ("foo.local. " +++ fmt_d t +++ " IN A 10.0.0.5") (constructRecords cfg r)
  /\ ~ In ("5.0.0.10.in-addr.arpa. " +++ fmt_d t +++ " IN PTR foo.local.")
          (constructRecords cfg r).
Proof.
  intros Hst cfg r.
  assert (Hout : constructRecords cfg r
    = [ "foo.kube-system.local. " +++ fmt_d t +++ " IN A 10.0.0.5";
        "foo-kube-system.local. " +++ fmt_d t +++ " IN A 10.0.0.5";
        "5.0.0.10.in-addr.arpa. " +++ fmt_d t +++ " IN PTR foo.kube-system.local.";
        "5.0.0.10.in-addr.arpa. " +++ fmt_d t +++ " IN PTR foo-kube-system.local." ]).
  { rewrite constructRecords_shape.
    assert (Hu : publishUnqualified cfg r = false).
    { unfold publishUnqualified; simpl.
      now apply String.eqb_neq in Hst as ->. }
    rewrite Hu. subst cfg r. unfold recordsOfAddress. simpl resource.IPs.
    change (publishable _ "10.0.0.5") with (Some (net.IPv4 10 0 0 5)).
    change (fst (reverseAddress "10.0.0.5")) with "5.0.0.10.in-addr.arpa.".
    change (net.String_ (net.IPv4 10 0 0 5)) with "10.0.0.5".
    reflexivity. }
  rewrite Hout. split; [reflexivity|]. split.
  - simpl. intros [H|[H|[H|[H|[]]]]]; discriminate H.
  - simpl. intros [H|[H|[H|[H|[]]]]]; try discriminate H.
    + injection H as H. apply append_inv_head in H. discriminate H.
    + injection H as H. apply append_inv_head in H. discriminate H.
Qed.

Lemma constructRecords_kube_system_witness :
  constructRecords exampleSettings exampleSnapshot
  = [ "foo.kube-system.local. 120 IN A 10.0.0.5";
      "foo-kube-system.local. 120 IN A 10.0.0.5";
      "5.0.0.10.in-addr.arpa. 120 IN PTR foo.kube-system.local.";
      "5.0.0.10.in-addr.arpa. 120 IN PTR foo-kube-system.local." ].
Proof.
  refine (proj1 (constructRecords_kube_system 120 "service" resource.Added _)).
  discriminate.
Defined.

(** ** Reverse records of the qualified names *)

(** C2, as the code has it: for every name of the snapshot and every
    entry of [ips] that parses and whose family is exposed, the output
    contains, contiguously and in this order, the forward record of the
    dot form, the forward record of the hyphen form, a PTR record whose
    target is the dot form and a PTR record whose target is the hyphen
    form; each forward form has a PTR record of its own. *)
Theorem qualified_ptr_targets (cfg : config.Settings) (r : resource.Resource)
        (name resourceIP : string) (ip : net.IP) :
  In name (resource.Names r) ->
  In resourceIP (resource.IPs r) ->
  publishable cfg resourceIP = Some ip ->
  let ttl := config.RecordTTL cfg in
  let ns := resource.Namespace r in
  let rtype := recordTypeOf (familyOf ip) in
  let zone := fst (reverseAddress resourceIP) in
  exists before after,
    constructRecords cfg r
    = before
      ++ [ addressRecord (dotHost name ns) ttl rtype (net.String_ ip);
           addressRecord (hyphenHost name ns) ttl rtype (net.String_ ip);
           pointerRecord zone ttl (dotHost name ns);
           pointerRecord zone ttl (hyphenHost name ns) ]
      ++ after.
Proof.
  intros Hn Ha Hp ttl ns rtype zone.
  rewrite constructRecords_shape.
  destruct (in_split _ _ Ha) as (ips1 & ips2 & ->).
  destruct (in_split _ _ Hn) as (ns1 & ns2 & Hns).
  rewrite flat_map_app. simpl flat_map.
  unfold recordsOfAddress at 2. rewrite Hp. cbv zeta.
  rewrite Hns, flat_map_app. simpl flat_map.
  fold ttl ns rtype zone.
  set (q := flat_map (qualifiedBlock ttl ns rtype (net.String_ ip) zone)).
  exists (flat_map (recordsOfAddress cfg r (publishUnqualified cfg r)) ips1 ++ q ns1).
  eexists.
  rewrite <- !app_assoc. simpl. reflexivity.
Qed.

Lemma qualified_ptr_targets_witness :
  exists before after,
    constructRecords exampleSettings exampleSnapshot
    = before
      ++ [ addressRecord (dotHost "foo" "kube-system") 120 "A" "10.0.0.5";
           addressRecord (hyphenHost "foo" "kube-system") 120 "A" "10.0.0.5";
           pointerRecord "5.0.0.10.in-addr.arpa." 120 (dotHost "foo" "kube-system");
           pointerRecord "5.0.0.10.in-addr.arpa." 120 (hyphenHost "foo" "kube-system") ]
      ++ after.
Proof.
  apply (qualified_ptr_targets exampleSettings exampleSnapshot
           "foo" "10.0.0.5" (net.IPv4 10 0 0 5)).
  - simpl. left. reflexivity.
  - simpl. left. reflexivity.
  - reflexivity.
Defined.

(** C2 as stated fails: in the worked example the fourth record is a
    PTR record whose target is the hyphen form, so not every PTR record
    points at the dot form. *)
Lemma ptr_target_counterexample :
  nth_error (constructRecords exampleSettings exampleSnapshot) 3
  = Some (pointerRecord "5.0.0.10.in-addr.arpa." 120 "foo-kube-system.local.")
  /\ hyphenHost "foo" "kube-system" = "foo-kube-system.local."
  /\ ~ (forall rec zone host,
           In rec (constructRecords exampleSettings exampleSnapshot) ->
           rec = pointerRecord zone 120 host ->
           host = dotHost "foo" "kube-system").
Proof.
  split; [reflexivity|]. split; [reflexivity|].
  intros H.
  specialize (H (pointerRecord "5.0.0.10.in-addr.arpa." 120 "foo-kube-system.local.")
                "5.0.0.10.in-addr.arpa." "foo-kube-system.local.").
  assert (Hin : In (pointerRecord "5.0.0.10.in-addr.arpa." 120 "foo-kube-system.local.")
                   (constructRecords exampleSettings exampleSnapshot)).
  { apply nth_error_In with (n := 3%nat). reflexivity. }
  specialize (H Hin eq_refl). discriminate H.
Qed.

(** ** Unqualified names *)



(** ** Address families *)

Lemma sameFamily_eq (f g : family) : sameFamily f g = true <-> f = g.
Proof. destruct f, g; simpl; split; intros H; try reflexivity; discriminate H. Qed.

Lemma reverseAddress_suffix (addr : string) (ip : net.IP) :
  net.ParseIP addr = Some ip ->
  exists labels, fst (reverseAddress addr) = labels +++ zoneSuffix (familyOf ip).
Proof.
  intros H. unfold reverseAddress, familyOf. rewrite H.
  destruct (net.To4 ip); simpl; eexists; reflexivity.
Qed.

Lemma recordsOfAddress_disabled cfg r unq f resourceIP :
  exposed cfg f = false ->
  ofFamily f resourceIP = true ->
  recordsOfAddress cfg r unq resourceIP = [].
Proof.
  unfold ofFamily, recordsOfAddress, publishable. intros He Hf.
  destruct (net.ParseIP resourceIP) as [ip|]; [|reflexivity].
  apply sameFamily_eq in Hf. now rewrite Hf, He.
Qed.

Lemma flat_map_filter_nil {A B} (f : A -> list B) (drop : A -> bool) (l : list A) :
  (forall a, drop a = true -> f a = []) ->
  flat_map f l = flat_map f (filter (fun a => negb (drop a)) l).
Proof.
  intros H. induction l as [|a l IH]; simpl; [reflexivity|].
  destruct (drop a) eqn:Hd; simpl.
  - now rewrite (H a Hd).
  - now rewrite IH.
Qed.

(** From membership in the records of an address to the name whose
    block holds the record. *)
Lemma block_of_name (names : list string) (qualified unqualified : string -> list string)
      (unq : bool) (rec : string) :
  In rec (flat_map qualified names ++ (if unq then flat_map unqualified names else [])) ->
  exists name, In name names /\ In rec (qualified name ++ unqualified name).
Proof.
  intros Hrec. apply in_app_or in Hrec. destruct Hrec as [Hq|Hu].
  - apply in_flat_map in Hq. destruct Hq as (name & Hn & Hq).
    exists name. split; [assumption|]. apply in_or_app. now left.
  - destruct unq; [|contradiction].
    apply in_flat_map in Hu. destruct Hu as (name & Hn & Hu).
    exists name. split; [assumption|]. apply in_or_app. now right.
Qed.

(** C6: when the publication of a family is disabled (IPv6 in
    particular), an entry of [ips] of that family alone yields no
    record, the output is what it would be with all entries of that
    family removed from [ips], and every record of the output is one of
    the six records of some name and of some entry of the other family:
    its type is the other family's (A when IPv6 is disabled), its rdata
    that address, or it is a PTR record in the other family's reverse
    zone (in-addr.arpa. when IPv6 is disabled).  The family of an entry
    is the one the program assigns to it. *)
Theorem disabled_family_skipped (cfg : config.Settings) (r : resource.Resource)
        (f : family) :
  exposed cfg f = false ->
  (forall resourceIP,
      ofFamily f resourceIP = true ->
      constructRecords cfg (resource.withIPs [resourceIP] r) = [])
  /\ constructRecords cfg r
     = constructRecords cfg
         (resource.withIPs (filter (fun a => negb (ofFamily f a)) (resource.IPs r)) r)
  /\ (forall rec,
         In rec (constructRecords cfg r) ->
         exists name resourceIP ip labels,
           In name (resource.Names r)
           /\ In resourceIP (resource.IPs r)
           /\ net.ParseIP resourceIP = Some ip
           /\ familyOf ip = otherFamily f
           /\ let ttl := config.RecordTTL cfg in
              let rtype := recordTypeOf (otherFamily f) in
              let zone := labels +++ zoneSuffix (otherFamily f) in
              In rec (qualifiedBlock ttl (resource.Namespace r) rtype
                                     (net.String_ ip) zone name
                      ++ unqualifiedBlock ttl rtype (net.String_ ip) zone name)).
Proof.
  intros He. split; [|split].
  - intros resourceIP Hf. rewrite constructRecords_shape. simpl.
    rewrite app_nil_r.
    apply (recordsOfAddress_disabled cfg _ _ f); assumption.
  - rewrite !constructRecords_shape. simpl resource.IPs.
    apply (flat_map_filter_nil (recordsOfAddress cfg r (publishUnqualified cfg r))
             (ofFamily f)).
    intros a Ha. apply (recordsOfAddress_disabled cfg r _ f); assumption.
  - intros rec. rewrite constructRecords_shape. intros Hin.
    apply in_flat_map in Hin. destruct Hin as (resourceIP & Ha & Hrec).
    unfold recordsOfAddress, publishable in Hrec.
    destruct (net.ParseIP resourceIP) as [ip|] eqn:Hp; [|contradiction].
    destruct (exposed cfg (familyOf ip)) eqn:Hex; [|contradiction].
    assert (Hfam : familyOf ip = otherFamily f).
    { destruct (familyOf ip), f; try reflexivity; rewrite He in Hex; discriminate. }
    destruct (reverseAddress_suffix _ _ Hp) as [labels Hz].
    cbv zeta in Hrec. rewrite Hz, Hfam in Hrec.
    apply block_of_name in Hrec. destruct Hrec as (name & Hn & Hblock).
    exists name, resourceIP, ip, labels. repeat split; assumption.
Qed.

Lemma disabled_family_skipped_witness :
  constructRecords exampleSettings
    (resource.withIPs ["fd00::5"] dualStackSnapshot) = []
  /\ constructRecords exampleSettings dualStackSnapshot
     = constructRecords exampleSettings
         (resource.withIPs ["10.0.0.5"] dualStackSnapshot).
Proof.
  destruct (disabled_family_skipped exampleSettings dualStackSnapshot V6 eq_refl)
    as (Hskip & Hfilter & _).
  split.
  - apply Hskip. vm_compute. reflexivity.
  - exact Hfilter.
Defined.

(** ** Decimal octets: printing and parsing *)

Lemma digitChar_facts (n : Z) :
  0 <= n < 10 ->
  isDigit (digitChar n) = true
  /\ byteOf (digitChar n) - byteOf "0" = n
  /\ Ascii.eqb (digitChar n) "." = false
  /\ Ascii.eqb (digitChar n) ":" = false
  /\ Ascii.eqb (digitChar n) "%" = false.
Proof.
  intros H. rewrite <- (Z2Nat.id n) by lia.
  assert (Hk : (Z.to_nat n < 10)%nat) by lia.
  revert Hk. generalize (Z.to_nat n). clear H. intros k Hk.
  do 10 (destruct k as [|k]; [repeat split; reflexivity|]).
  lia.
Qed.

Lemma appendDecimal_append (b : string) (x : Z) :
  net.appendDecimal b x = b +++ decimal x.
Proof.
  unfold decimal, net.appendDecimal.
  destruct (100 <=? x), (10 <=? x); simpl; now rewrite ?append_assoc.
Qed.

Lemma decimal_digits (x : Z) : octet x -> decimalDigits x (decimal x).
Proof.
  unfold octet, decimal, net.appendDecimal. intros H.
  destruct (Z.leb_spec 100 x) as [H100|H100].
  - assert (H10 : (10 <=? x) = true) by (apply Z.leb_le; lia).
    rewrite H10. simpl.
    replace x with ((x / 100 * 10 + x / 10 mod 10) * 10 + x mod 10) at 1
      by (Z.to_euclidean_division_equations; lia).
    apply decimal3; Z.to_euclidean_division_equations; lia.
  - destruct (Z.leb_spec 10 x) as [H10|H10]; simpl.
    + replace x with (x / 10 mod 10 * 10 + x mod 10) at 1
        by (Z.to_euclidean_division_equations; lia).
      apply decimal2; Z.to_euclidean_division_equations; lia.
    + replace (x mod 10) with x by (Z.to_euclidean_division_equations; lia).
      apply decimal1. lia.
Qed.

Lemma parseIPv4Fields_loop_digit (n : Z) s prev val digLen fields :
  0 <= n < 10 ->
  net.parseIPv4Fields_loop (String (digitChar n) s) prev val digLen fields
  = if (digLen =? 1) && (val =? 0) then None
    else if 255 <? val * 10 + n then None
         else net.parseIPv4Fields_loop s (Some (digitChar n)) (val * 10 + n)
                                       (digLen + 1) fields.
Proof.
  intros H. destruct (digitChar_facts n H) as (Hd & Hv & _).
  simpl. rewrite Hd.
  replace (val * 10 + byteOf (digitChar n) - byteOf "0") with (val * 10 + n) by lia.
  reflexivity.
Qed.

Ltac settle_tests :=
  simpl andb; cbv iota;
  repeat match goal with
         | |- context [?a =? ?b] => destruct (Z.eqb_spec a b); [lia|]
         | |- context [?a <? ?b] => destruct (Z.ltb_spec a b); [lia|]
         end.

Lemma parseIPv4Fields_loop_decimal (x : Z) rest prev fields :
  octet x ->
  exists c n,
    Ascii.eqb c "." = false
    /\ net.parseIPv4Fields_loop (decimal x +++ rest) prev 0 0 fields
       = net.parseIPv4Fields_loop rest (Some c) x n fields.
Proof.
  intros Hx. destruct (decimal_digits x Hx) as [x0 H0|d1 d0 H1 H0|d2 d1 d0 H2 H1 H0 Hlt].
  - exists (digitChar x0), 1. split; [apply digitChar_facts; assumption|].
    simpl String.append. rewrite parseIPv4Fields_loop_digit by assumption.
    settle_tests. f_equal; lia.
  - exists (digitChar d0), 2. split; [apply digitChar_facts; assumption|].
    simpl String.append. rewrite !parseIPv4Fields_loop_digit by lia.
    settle_tests. f_equal; lia.
  - exists (digitChar d0), 3. split; [apply digitChar_facts; assumption|].
    simpl String.append. rewrite !parseIPv4Fields_loop_digit by lia.
    settle_tests. f_equal; lia.
Qed.

Lemma parseIPv4Fields_loop_dot rest c val n fields :
  Ascii.eqb c "." = false ->
  rest <> "" ->
  (List.length fields < 3)%nat ->
  net.parseIPv4Fields_loop (String "." rest) (Some c) val n fields
  = net.parseIPv4Fields_loop rest (Some "."%char) 0 0 (fields ++ [uint8 val]).
Proof.
  intros Hc Hr Hl. simpl. rewrite Hc.
  destruct rest as [|c' rest]; [contradiction|]. simpl isEmpty. simpl orb. cbv iota.
  destruct (Nat.eqb_spec (List.length fields) 3); [lia|]. reflexivity.
Qed.

Lemma decimal_nonempty (x : Z) rest : decimal x +++ rest <> "".
Proof.
  unfold decimal, net.appendDecimal.
  destruct (100 <=? x), (10 <=? x); simpl; discriminate.
Qed.

Lemma uint8_octet (x : Z) : octet x -> uint8 x = x.
Proof. unfold octet, uint8. intros H. now apply Z.mod_small. Qed.

Lemma parseIPv4Fields_loop_field (x : Z) rest prev fields :
  octet x ->
  rest <> "" ->
  (List.length fields < 3)%nat ->
  net.parseIPv4Fields_loop (decimal x +++ "." +++ rest) prev 0 0 fields
  = net.parseIPv4Fields_loop rest (Some "."%char) 0 0 (fields ++ [x]).
Proof.
  intros Hx Hr Hl.
  destruct (parseIPv4Fields_loop_decimal x ("." +++ rest) prev fields Hx)
    as (c & n & Hc & ->).
  change ("." +++ rest) with (String "." rest).
  rewrite parseIPv4Fields_loop_dot by assumption.
  now rewrite uint8_octet.
Qed.

Lemma parseIPv4Fields_loop_last (x : Z) prev fields :
  octet x ->
  net.parseIPv4Fields_loop (decimal x) prev 0 0 fields = Some (x, fields).
Proof.
  intros Hx. rewrite <- (append_nil_r (decimal x)).
  destruct (parseIPv4Fields_loop_decimal x "" prev fields Hx) as (c & n & Hc & ->).
  reflexivity.
Qed.

Lemma parseIPv4_dotted (a b c d : Z) :
  octet a -> octet b -> octet c -> octet d ->
  net.parseIPv4 (dotted a b c d) = Some [a; b; c; d].
Proof.
  intros Ha Hb Hc Hd. unfold net.parseIPv4, net.parseIPv4Fields, dotted.
  assert (Hne : decimal d <> "")
    by (rewrite <- (append_nil_r (decimal d)); apply decimal_nonempty).
  rewrite !parseIPv4Fields_loop_field;
    try assumption; try apply decimal_nonempty; try (simpl; lia).
  rewrite parseIPv4Fields_loop_last by assumption.
  simpl. now rewrite uint8_octet.
Qed.

Lemma firstSep_decimal (x : Z) rest :
  octet x -> net.firstSep (decimal x +++ rest) = net.firstSep rest.
Proof.
  intros Hx.
  assert (Hstep : forall n s, 0 <= n < 10 ->
            net.firstSep (String (digitChar n) s) = net.firstSep s).
  { intros n s Hn. destruct (digitChar_facts n Hn) as (_ & _ & H1 & H2 & H3).
    simpl. now rewrite H1, H2, H3. }
  destruct (decimal_digits x Hx); simpl String.append; rewrite ?Hstep by lia;
    reflexivity.
Qed.

Lemma ParseIP_dotted (a b c d : Z) :
  octet a -> octet b -> octet c -> octet d ->
  net.ParseIP (dotted a b c d) = Some (net.IPv4 a b c d).
Proof.
  intros Ha Hb Hc Hd. unfold net.ParseIP.
  rewrite parseIPv4_dotted by assumption.
  unfold dotted. rewrite firstSep_decimal by assumption. reflexivity.
Qed.

(** ** What the parser returns *)

Lemma parseIPv4Fields_loop_octets s :
  forall prev val digLen fields val' fields',
    net.parseIPv4Fields_loop s prev val digLen fields = Some (val', fields') ->
    (List.length fields <= 3)%nat -> Forall octet fields ->
    (List.length fields' <= 3)%nat /\ Forall octet fields'.
Proof.
  induction s as [|c s IH]; intros prev val digLen fields val' fields'; simpl.
  - intros H. injection H as <- <-. auto.
  - destruct (isDigit c).
    + destruct ((digLen =? 1) && (val =? 0)); [discriminate|].
      destruct (255 <? val * 10 + byteOf c - byteOf "0"); [discriminate|].
      apply IH.
    + destruct (Ascii.eqb c "."); [|discriminate].
      destruct (_ || isEmpty s); [discriminate|].
      destruct (Nat.eqb_spec (List.length fields) 3); [discriminate|].
      intros H Hl Hf. apply IH in H; [assumption| |].
      * rewrite length_app. simpl. lia.
      * apply Forall_app. split; [assumption|]. constructor; [|constructor].
        unfold octet, uint8. apply Z.mod_pos_bound. lia.
Qed.

Lemma parseIPv4Fields_octets s v4 :
  net.parseIPv4Fields s = Some v4 -> List.length v4 = 4%nat /\ Forall octet v4.
Proof.
  unfold net.parseIPv4Fields.
  destruct (net.parseIPv4Fields_loop s None 0 0 []) as [[val fields]|] eqn:H;
    [|discriminate].
  apply parseIPv4Fields_loop_octets in H; [|simpl; lia|constructor].
  destruct H as [Hl Hf].
  destruct (Nat.ltb_spec (List.length fields) 3); [discriminate|].
  intros E. injection E as <-. split.
  - rewrite length_app. simpl. lia.
  - apply Forall_app. split; [assumption|]. constructor; [|constructor].
    unfold octet, uint8. apply Z.mod_pos_bound. lia.
Qed.

Lemma parseIPv6_loop_inv groups :
  forall s ip ellipsis st,
    net.parseIPv6_loop groups s ip ellipsis = Some st ->
    (List.length ip + 2 * groups = 16)%nat -> Forall octet ip ->
    (List.length (net.v6ip st) <= 16)%nat /\ Forall octet (net.v6ip st).
Proof.
  induction groups as [|groups IH]; intros s ip ellipsis st; simpl.
  - intros H Hl Hf. injection H as <-. simpl. split; [lia|assumption].
  - destruct (net.hexGroup s 0 0) as [[[off acc] rest]|]; [|discriminate].
    destruct (off =? 0); [discriminate|].
    intros H Hl Hf.
    assert (Hf2 : Forall octet (ip ++ [uint8 (Z.shiftr acc 8); uint8 acc])).
    { apply Forall_app. split; [assumption|].
      repeat constructor; unfold octet, uint8; apply Z.mod_pos_bound; lia. }
    assert (Hl2 : (List.length (ip ++ [uint8 (Z.shiftr acc 8); uint8 acc])
                   + 2 * groups = 16)%nat).
    { rewrite length_app. simpl. lia. }
    destruct (net.startsWith "." rest).
    + destruct ((ellipsis <? 0) && negb (Z.of_nat (List.length ip) =? 12));
        [discriminate|].
      destruct (Z.ltb_spec 16 (Z.of_nat (List.length ip) + 4)); [discriminate|].
      destruct (net.parseIPv4Fields s) as [v4|] eqn:H4; [|discriminate].
      injection H as <-. simpl.
      apply parseIPv4Fields_octets in H4. destruct H4 as [Hl4 Hf4].
      split.
      * rewrite length_app. lia.
      * apply Forall_app. now split.
    + destruct rest as [|c rest1].
      * injection H as <-. simpl. split; [lia|assumption].
      * destruct (negb (Ascii.eqb c ":")); [discriminate|].
        destruct (isEmpty rest1); [discriminate|].
        destruct (net.startsWith ":" rest1).
        -- destruct (0 <=? ellipsis); [discriminate|].
           destruct (isEmpty _).
           ++ injection H as <-. simpl. split; [lia|assumption].
           ++ apply IH in H; assumption.
        -- apply IH in H; assumption.
Qed.

Lemma Some_eq {A} (a b : A) : Some a = Some b -> a = b.
Proof. congruence. Qed.

Lemma Forall_repeat_octet n : Forall octet (repeat 0 n).
Proof. induction n; simpl; constructor; [unfold octet; lia|assumption]. Qed.

Lemma parseIPv6_octets s ip :
  net.parseIPv6 s = Some ip -> List.length ip = 16%nat /\ Forall octet ip.
Proof.
  unfold net.parseIPv6.
  destruct (net.contains "%" s); [discriminate|].
  set (start := match s with
                | String ":" (String ":" s2) => (s2, 0, isEmpty s2)
                | _ => (s, -1, false)
                end).
  destruct start as [[s0 ellipsis] only].
  destruct only.
  - intros H. injection H as <-. split; [reflexivity|apply (Forall_repeat_octet 16)].
  - destruct (net.parseIPv6_loop 8 s0 [] ellipsis) as [st|] eqn:Hloop; [|discriminate].
    apply parseIPv6_loop_inv in Hloop; [|reflexivity|constructor].
    destruct Hloop as [Hl Hf].
    destruct (negb (isEmpty (net.v6rest st))); [discriminate|].
    destruct (Z.ltb_spec (Z.of_nat (List.length (net.v6ip st))) 16) as [Hlt|Hge].
    + destruct (net.v6ellipsis st <? 0); [discriminate|].
      intros H. apply Some_eq in H. subst ip. split.
      * rewrite !length_app, repeat_length.
        pose proof (f_equal (@List.length Z)
                      (firstn_skipn (Z.to_nat (net.v6ellipsis st)) (net.v6ip st)))
          as Hsplit.
        rewrite length_app in Hsplit. lia.
      * rewrite <- (firstn_skipn (Z.to_nat (net.v6ellipsis st)) (net.v6ip st)) in Hf.
        apply Forall_app in Hf. destruct Hf as [Hf1 Hf2].
        repeat (apply Forall_app; split); auto using Forall_repeat_octet.
    + destruct (0 <=? net.v6ellipsis st); [discriminate|].
      intros H. injection H as <-. split; [lia|assumption].
Qed.

Lemma ParseIP_octets s ip :
  net.ParseIP s = Some ip -> List.length ip = 16%nat /\ Forall octet ip.
Proof.
  unfold net.ParseIP.
  destruct (net.firstSep s) as [c|]; [|discriminate].
  destruct (Ascii.eqb_spec c "."); [subst c|].
  - destruct (net.parseIPv4 s) as [v4|] eqn:H4; [|discriminate].
    apply parseIPv4Fields_octets in H4. destruct H4 as [Hl Hf].
    intros H. apply Some_eq in H. subst ip. split.
    + rewrite length_app. simpl. lia.
    + apply Forall_app. split; [|assumption].
      unfold net.v4InV6Prefix. simpl. repeat constructor; unfold octet; lia.
  - destruct (Ascii.eqb_spec c ":"); [subst c|].
    + apply parseIPv6_octets.
    + destruct c as [[] [] [] [] [] [] [] []]; try discriminate;
        exfalso; auto.
Qed.

(** ** Every text the IPv4 parser accepts is dotted decimal *)

Lemma isDigit_digitChar (c : ascii) :
  isDigit c = true ->
  exists d, 0 <= d < 10 /\ c = digitChar d /\ byteOf c - byteOf "0" = d.
Proof.
  intros H. exists (byteOf c - byteOf "0").
  destruct c as [[] [] [] [] [] [] [] []]; try discriminate H;
    (split; [|split; reflexivity]);
    match goal with |- _ <= ?e < _ => let v := eval vm_compute in e in change e with v end;
    lia.
Qed.

Lemma decimal_single (d : Z) : 0 <= d < 10 -> decimal d = String (digitChar d) "".
Proof.
  intros H. unfold decimal, net.appendDecimal, digitChar.
  destruct (Z.leb_spec 100 d); [lia|]. destruct (Z.leb_spec 10 d); [lia|].
  simpl. now rewrite Z.mod_small by lia.
Qed.

Lemma decimal_snoc (val d : Z) :
  1 <= val -> 0 <= d < 10 -> val * 10 + d <= 255 ->
  decimal (val * 10 + d) = decimal val +++ String (digitChar d) "".
Proof.
  intros Hv Hd Hle. unfold decimal, net.appendDecimal, digitChar.
  destruct (Z.leb_spec 100 val); [lia|].
  destruct (Z.leb_spec 10 (val * 10 + d)); [|lia].
  replace ((val * 10 + d) mod 10) with d
    by (Z.to_euclidean_division_equations; lia).
  destruct (Z.leb_spec 10 val).
  - destruct (Z.leb_spec 100 (val * 10 + d)); [|lia]. simpl.
    replace ((val * 10 + d) / 100) with (val / 10 mod 10)
      by (Z.to_euclidean_division_equations; lia).
    replace ((val * 10 + d) / 10 mod 10) with (val mod 10)
      by (Z.to_euclidean_division_equations; lia).
    reflexivity.
  - destruct (Z.leb_spec 100 (val * 10 + d)); [lia|]. simpl.
    replace ((val * 10 + d) / 10 mod 10) with (val mod 10)
      by (Z.to_euclidean_division_equations; lia).
    reflexivity.
Qed.

Lemma fieldRead_digit cur val digLen d :
  fieldRead cur val digLen ->
  0 <= d < 10 ->
  (digLen =? 1) && (val =? 0) = false ->
  val * 10 + d <= 255 ->
  fieldRead (cur +++ String (digitChar d) "") (val * 10 + d) (digLen + 1).
Proof.
  intros [(-> & -> & ->)|(Hc & Ho & Hl)] Hd Hz Hle; right.
  - simpl. rewrite decimal_single by assumption. repeat split; unfold octet; lia.
  - assert (Hv : 1 <= val).
    { destruct (Z.eq_dec val 0) as [E|E]; [|unfold octet in Ho; lia].
      subst val. rewrite Hc in Hl. simpl in Hl. subst digLen. discriminate Hz. }
    rewrite decimal_snoc, <- Hc by assumption.
    rewrite append_length. simpl String.length. repeat split; unfold octet; lia.
Qed.

Lemma parseIPv4Fields_loop_text s :
  forall prev val digLen fields cur val' fields',
    net.parseIPv4Fields_loop s prev val digLen fields = Some (val', fields') ->
    fieldRead cur val digLen ->
    (cur = "" -> prev = None \/ prev = Some "."%char) ->
    exists octets cur' digLen',
      fields' = fields ++ octets
      /\ fieldRead cur' val' digLen'
      /\ cur +++ s = dottedFields octets +++ cur'
      /\ (s <> "" \/ cur <> "" -> cur' <> "").
Proof.
  induction s as [|c s IH]; intros prev val digLen fields cur val' fields'.
  - simpl. intros E Hf Hp. injection E as <- <-.
    exists [], cur, digLen. rewrite app_nil_r, append_nil_r.
    repeat split; try assumption. intros [H|H]; [contradiction|assumption].
  - simpl net.parseIPv4Fields_loop.
    destruct (isDigit c) eqn:Hdig.
    + destruct (isDigit_digitChar c Hdig) as (d & Hd & -> & Hval).
      destruct ((digLen =? 1) && (val =? 0)) eqn:Hz; [discriminate|].
      replace (val * 10 + byteOf (digitChar d) - byteOf "0") with (val * 10 + d) by lia.
      destruct (Z.ltb_spec 255 (val * 10 + d)); [discriminate|].
      intros E Hf Hp.
      apply (IH _ _ _ _ (cur +++ String (digitChar d) "")) in E.
      * destruct E as (octets & cur' & digLen' & -> & Hf' & Htext & Hne).
        exists octets, cur', digLen'. repeat split; try assumption.
        -- rewrite <- Htext, append_assoc. reflexivity.
        -- intros _. apply Hne. right. destruct cur; discriminate.
      * apply fieldRead_digit; assumption.
      * intros Hcur. destruct cur; discriminate Hcur.
    + destruct (Ascii.eqb_spec c "."); [subst c|discriminate].
      destruct prev as [p|]; [|discriminate].
      destruct (Ascii.eqb_spec p "."); [discriminate|].
      destruct s as [|c2 s2]; [discriminate|]. simpl isEmpty. simpl orb. cbv iota.
      destruct (List.length fields =? 3)%nat; [discriminate|].
      intros E Hf Hp.
      assert (Hcur : cur = decimal val /\ octet val).
      { destruct Hf as [(-> & _ & _)|(Hc & Ho & _)]; [|now split].
        destruct (Hp eq_refl) as [H|H]; [discriminate H|].
        injection H as ->. contradiction. }
      destruct Hcur as [-> Ho].
      apply (IH _ _ _ _ "") in E.
      * destruct E as (octets & cur' & digLen' & -> & Hf' & Htext & Hne).
        exists (val :: octets), cur', digLen'. repeat split; try assumption.
        -- rewrite uint8_octet by assumption. now rewrite <- app_assoc.
        -- simpl dottedFields. rewrite !append_assoc. simpl in Htext |- *.
           now rewrite Htext.
        -- intros _. apply Hne. left. discriminate.
      * left. repeat split.
      * intros _. now right.
Qed.

Lemma parseIPv4_canonical (s : string) (v4 : list Z) :
  net.parseIPv4 s = Some v4 ->
  exists a b c d,
    octet a /\ octet b /\ octet c /\ octet d
    /\ v4 = [a; b; c; d] /\ s = dotted a b c d.
Proof.
  unfold net.parseIPv4. intros H.
  destruct (parseIPv4Fields_octets _ _ H) as [Hlen Hoct].
  unfold net.parseIPv4Fields in H.
  destruct (net.parseIPv4Fields_loop s None 0 0 []) as [[val fields]|] eqn:Hloop;
    [|discriminate].
  destruct (Nat.ltb_spec (List.length fields) 3); [discriminate|].
  apply Some_eq in H. subst v4.
  apply (parseIPv4Fields_loop_text _ _ _ _ _ "") in Hloop;
    [|left; repeat split|intros _; now left].
  destruct Hloop as (octets & cur' & digLen' & Hf & Hread & Htext & Hne).
  simpl in Hf, Htext. subst fields.
  rewrite length_app in Hlen. simpl in Hlen.
  destruct octets as [|a [|b [|c [|]]]]; simpl in Hlen; try lia.
  assert (Hs : s <> "")
    by (rewrite Htext; simpl dottedFields; rewrite append_assoc;
        apply decimal_nonempty).
  destruct Hread as [(-> & _ & _)|(-> & Ho & _)]; [exfalso; apply Hne; auto|].
  rewrite uint8_octet by assumption.
  pose proof (Forall_inv Hoct) as Ha.
  pose proof (Forall_inv (Forall_inv_tail Hoct)) as Hb.
  pose proof (Forall_inv (Forall_inv_tail (Forall_inv_tail Hoct))) as Hc.
  exists a, b, c, val. repeat split; try apply Ha; try apply Hb; try apply Hc;
    try apply Ho.
  rewrite Htext. unfold dotted. cbn [dottedFields]. rewrite !append_assoc.
  reflexivity.
Qed.

(** ** Reverse zone of an IPv4 address *)

(** C4: for octets [a], [b], [c], [d] the reverse zone of the dotted
    decimal text a.b.c.d is the text d.c.b.a followed by
    .in-addr.arpa., returned with a nil error.  By
    [parseIPv4_canonical] these texts are all the texts the IPv4 parser
    accepts. *)
Theorem reverseAddress_ipv4 (a b c d : Z) :
  octet a -> octet b -> octet c -> octet d ->
  reverseAddress (dotted a b c d) = (dotted d c b a +++ ".in-addr.arpa.", None).
Proof.
  intros Ha Hb Hc Hd. unfold reverseAddress.
  rewrite ParseIP_dotted by assumption.
  change (net.To4 (net.IPv4 a b c d)) with (Some [a; b; c; d]).
  cbv iota beta.
  change (net.String_ _) with (net.string4 [d; c; b; a]).
  unfold net.string4. simpl nth.
  rewrite !appendDecimal_append.
  unfold dotted. rewrite !append_assoc. reflexivity.
Qed.

Lemma reverseAddress_ipv4_witness :
  reverseAddress "192.168.1.254" = ("254.1.168.192.in-addr.arpa.", None).
Proof.
  apply (reverseAddress_ipv4 192 168 1 254); unfold octet; lia.
Defined.

(** ** Reverse zone of an IPv6 address *)

Lemma nibbles_length (ip : net.IP) :
  List.length (nibbles ip) = (2 * List.length ip)%nat.
Proof. induction ip as [|b ip IH]; simpl; [reflexivity|]. rewrite IH. lia. Qed.

Lemma nibbles_range (ip : net.IP) : Forall octet ip -> Forall nibble (nibbles ip).
Proof.
  induction 1 as [|b ip Hb _ IH]; simpl; [constructor|].
  unfold octet in Hb. unfold nibble.
  repeat constructor; try assumption; Z.to_euclidean_division_equations; lia.
Qed.

Lemma nibbleLabels_app (xs ys : list Z) :
  nibbleLabels (xs ++ ys) = nibbleLabels xs +++ nibbleLabels ys.
Proof. induction xs as [|x xs IH]; simpl; [reflexivity|]. now rewrite IH. Qed.

Lemma nibbleLabels_length (ns : list Z) :
  String.length (nibbleLabels ns) = (2 * List.length ns)%nat.
Proof. induction ns as [|n ns IH]; simpl; [reflexivity|]. rewrite IH. lia. Qed.

Lemma firstn_succ_nth (l : list Z) (i : nat) :
  (i < List.length l)%nat -> firstn (S i) l = firstn i l ++ [nth i l 0].
Proof.
  revert i. induction l as [|x l IH]; intros i Hi; simpl in Hi; [lia|].
  destruct i as [|i]; [reflexivity|].
  simpl. f_equal. apply IH. lia.
Qed.

Lemma reverseAddress_loop_labels (ip : net.IP) (n : nat) :
  forall buf,
    (n <= List.length ip)%nat ->
    reverseAddress_loop ip n buf
    = buf +++ nibbleLabels (rev (nibbles (firstn n ip))).
Proof.
  induction n as [|i IH]; intros buf Hn.
  - simpl. now rewrite append_nil_r.
  - simpl reverseAddress_loop. rewrite IH by lia.
    rewrite firstn_succ_nth by lia.
    unfold nibbles at 2. rewrite flat_map_app. fold (nibbles (firstn i ip)).
    simpl flat_map. rewrite rev_app_distr. simpl rev.
    rewrite nibbleLabels_app.
    change 15 with (Z.ones 4). rewrite Z.land_ones by lia.
    rewrite Z.shiftr_div_pow2 by lia.
    change (2 ^ 4) with 16.
    rewrite !append_assoc. reflexivity.
Qed.

(** C5, as the code has it: for every text that [net.ParseIP] accepts
    and does not classify as IPv4 ([To4] is nil, which leaves out the
    IPv4-mapped addresses), the reverse zone is made of the 32 nibbles of
    the address in reverse order, the low nibble of each byte first,
    each printed as one hexadecimal digit followed by a dot, then
    ip6.arpa., and the error is nil. *)
Theorem reverseAddress_ipv6 (addr : string) (ip : net.IP) :
  net.ParseIP addr = Some ip ->
  net.To4 ip = None ->
  reverseAddress addr = (nibbleLabels (rev (nibbles ip)) +++ "ip6.arpa.", None)
  /\ List.length (rev (nibbles ip)) = 32%nat
  /\ Forall nibble (rev (nibbles ip)).
Proof.
  intros Hp H4. destruct (ParseIP_octets _ _ Hp) as [Hl Hf].
  split; [|split].
  - unfold reverseAddress. rewrite Hp, H4.
    rewrite reverseAddress_loop_labels by lia.
    now rewrite firstn_all.
  - rewrite length_rev, nibbles_length, Hl. reflexivity.
  - apply Forall_rev. now apply nibbles_range.
Qed.

Lemma reverseAddress_ipv6_witness :
  reverseAddress "2001:db8::567:89ab"
  = ("b.a.9.8.7.6.5.0.0.0.0.0.0.0.0.0.0.0.0.0.0.0.0.0.8.b.d.0.1.0.0.2.ip6.arpa.",
     None).
Proof.
  refine (proj1 (reverseAddress_ipv6 "2001:db8::567:89ab"
            [32; 1; 13; 184; 0; 0; 0; 0; 0; 0; 0; 0; 5; 103; 137; 171] _ _)).
  - vm_compute. reflexivity.
  - vm_compute. reflexivity.
Defined.

(** C5 as stated fails on an IPv4-mapped IPv6 text: it is parsed by the
    IPv6 branch of the parser, and its reverse zone is the in-addr.arpa.
    name of the embedded IPv4 address, not 32 nibble labels. *)
Lemma reverseAddress_mapped_counterexample :
  net.firstSep "::ffff:1.2.3.4" = Some ":"%char
  /\ net.parseIPv6 "::ffff:1.2.3.4" = Some (net.IPv4 1 2 3 4)
  /\ reverseAddress "::ffff:1.2.3.4" = ("4.3.2.1.in-addr.arpa.", None)
  /\ ~ (exists ns,
           List.length ns = 32%nat
           /\ reverseAddress "::ffff:1.2.3.4"
              = (nibbleLabels ns +++ "ip6.arpa.", None)).
Proof.
  split; [reflexivity|]. split; [vm_compute; reflexivity|].
  assert (H : reverseAddress "::ffff:1.2.3.4" = ("4.3.2.1.in-addr.arpa.", None))
    by (vm_compute; reflexivity).
  split; [exact H|].
  intros (ns & Hl & E). rewrite H in E.
  apply (f_equal fst) in E. simpl fst in E.
  apply (f_equal String.length) in E.
  rewrite append_length, nibbleLabels_length, Hl in E.
  simpl in E. lia.
Qed.

(** ** The dispatcher *)

Section DispatcherFacts.

Variable Responder : Type.
Variable mdns_Publish : string -> Responder -> Responder * option string.
Variable mdns_UnPublish : string -> Responder -> Responder * option string.

Lemma publishRecord_outcome rr (p : process Responder) :
  publishRecord mdns_Publish rr p
  = let p' := {| responder := fst (mdns_Publish rr (responder p));
                 calls := calls p ++ [CallPublish rr] |} in
    match snd (mdns_Publish rr (responder p)) with
    | Some _ => Fatal p'
    | None => Continue p'
    end.
Proof.
  unfold publishRecord.
  destruct (mdns_Publish rr (responder p)) as [resp [e|]]; reflexivity.
Qed.

Lemma unpublishRecord_outcome rr (p : process Responder) :
  unpublishRecord mdns_UnPublish rr p
  = let p' := {| responder := fst (mdns_UnPublish rr (responder p));
                 calls := calls p ++ [CallUnPublish rr] |} in
    match snd (mdns_UnPublish rr (responder p)) with
    | Some _ => Fatal p'
    | None => Continue p'
    end.
Proof.
  unfold unpublishRecord.
  destruct (mdns_UnPublish rr (responder p)) as [resp [e|]]; reflexivity.
Qed.

(** C10: a received resource whose action is neither Added nor Deleted
    leaves the process as it was: no call is made to the responder and
    its state is unchanged, whatever records were synthesized; the
    consumer goes on with the next resource. *)
Theorem other_action_dispatches_nothing (cfg : config.Settings)
        (r : resource.Resource) (rest : list resource.Resource)
        (p : process Responder) :
  resource.Action r <> resource.Added ->
  resource.Action r <> resource.Deleted ->
  dispatch mdns_Publish mdns_UnPublish (resource.Action r)
           (constructRecords cfg r) p = Continue p
  /\ run mdns_Publish mdns_UnPublish cfg (r :: rest) p
     = run mdns_Publish mdns_UnPublish cfg rest p.
Proof.
  intros Ha Hd.
  apply String.eqb_neq in Ha. apply String.eqb_neq in Hd.
  assert (H : forall records,
             dispatch mdns_Publish mdns_UnPublish (resource.Action r) records p
             = Continue p).
  { induction records as [|record records IH]; simpl; [reflexivity|].
    rewrite Ha, Hd. destruct (String.eqb record ""); exact IH. }
  split; [apply H|]. simpl. now rewrite H.
Qed.

Lemma andThen_assoc (o : outcome Responder) k1 k2 :
  andThen (andThen o k1) k2 = andThen o (fun p => andThen (k1 p) k2).
Proof. destruct o; reflexivity. Qed.

Lemma dispatch_app action pre post (p : process Responder) :
  dispatch mdns_Publish mdns_UnPublish action (pre ++ post) p
  = andThen (dispatch mdns_Publish mdns_UnPublish action pre p)
            (dispatch mdns_Publish mdns_UnPublish action post).
Proof.
  revert p. induction pre as [|record pre IH]; intros p; simpl; [reflexivity|].
  destruct (String.eqb record ""); [apply IH|].
  destruct (String.eqb action resource.Added).
  - destruct (publishRecord mdns_Publish record p); simpl; [apply IH|reflexivity].
  - destruct (String.eqb action resource.Deleted); [|apply IH].
    destruct (unpublishRecord mdns_UnPublish record p); simpl;
      [apply IH|reflexivity].
Qed.

Lemma run_app cfg first second (p : process Responder) :
  run mdns_Publish mdns_UnPublish cfg (first ++ second) p
  = andThen (run mdns_Publish mdns_UnPublish cfg first p)
            (run mdns_Publish mdns_UnPublish cfg second).
Proof.
  revert p. induction first as [|r first IH]; intros p; simpl; [reflexivity|].
  destruct (dispatch mdns_Publish mdns_UnPublish (resource.Action r)
                     (constructRecords cfg r) p); simpl; [apply IH|reflexivity].
Qed.

(** C9: a call to the responder that returns an error ends the process
    on the spot, wherever in the record list it happens: the outcome
    is fatal with that call as the last one made, the records that
    follow in the same resource are not dispatched and the resources
    that follow are not processed; a call that returns nil is recorded
    and the dispatcher continues with the next record. *)
Theorem responder_failure_is_fatal (rr : string) (p : process Responder) :
  rr <> "" ->
  (forall resp e,
      mdns_Publish rr (responder p) = (resp, Some e) ->
      let p' := {| responder := resp; calls := calls p ++ [CallPublish rr] |} in
      publishRecord mdns_Publish rr p = Fatal p'
      /\ forall cfg r rest before after p0,
          resource.Action r = resource.Added ->
          constructRecords cfg r = before ++ rr :: after ->
          dispatch mdns_Publish mdns_UnPublish resource.Added before p0
          = Continue p ->
          dispatch mdns_Publish mdns_UnPublish (resource.Action r)
                   (constructRecords cfg r) p0 = Fatal p'
          /\ run mdns_Publish mdns_UnPublish cfg (r :: rest) p0 = Fatal p')
  /\ (forall resp e,
      mdns_UnPublish rr (responder p) = (resp, Some e) ->
      let p' := {| responder := resp; calls := calls p ++ [CallUnPublish rr] |} in
      unpublishRecord mdns_UnPublish rr p = Fatal p'
      /\ forall cfg r rest before after p0,
          resource.Action r = resource.Deleted ->
          constructRecords cfg r = before ++ rr :: after ->
          dispatch mdns_Publish mdns_UnPublish resource.Deleted before p0
          = Continue p ->
          dispatch mdns_Publish mdns_UnPublish (resource.Action r)
                   (constructRecords cfg r) p0 = Fatal p'
          /\ run mdns_Publish mdns_UnPublish cfg (r :: rest) p0 = Fatal p')
  /\ (forall resp after,
      mdns_Publish rr (responder p) = (resp, None) ->
      let p' := {| responder := resp; calls := calls p ++ [CallPublish rr] |} in
      publishRecord mdns_Publish rr p = Continue p'
      /\ dispatch mdns_Publish mdns_UnPublish resource.Added (rr :: after) p
         = dispatch mdns_Publish mdns_UnPublish resource.Added after p')
  /\ (forall resp after,
      mdns_UnPublish rr (responder p) = (resp, None) ->
      let p' := {| responder := resp; calls := calls p ++ [CallUnPublish rr] |} in
      unpublishRecord mdns_UnPublish rr p = Continue p'
      /\ dispatch mdns_Publish mdns_UnPublish resource.Deleted (rr :: after) p
         = dispatch mdns_Publish mdns_UnPublish resource.Deleted after p').
Proof.
  intros Hne. apply String.eqb_neq in Hne.
  split; [|split; [|split]].
  - intros resp e H p'.
    assert (Hp : publishRecord mdns_Publish rr p = Fatal p')
      by (unfold publishRecord; now rewrite H).
    split; [exact Hp|].
    intros cfg r rest before after p0 Hact Hrec Hbefore.
    assert (Hd : dispatch mdns_Publish mdns_UnPublish (resource.Action r)
                          (constructRecords cfg r) p0 = Fatal p').
    { rewrite Hrec, Hact, dispatch_app, Hbefore. simpl.
      now rewrite Hne, Hp. }
    split; [exact Hd|]. simpl run. now rewrite Hd.
  - intros resp e H p'.
    assert (Hp : unpublishRecord mdns_UnPublish rr p = Fatal p')
      by (unfold unpublishRecord; now rewrite H).
    split; [exact Hp|].
    intros cfg r rest before after p0 Hact Hrec Hbefore.
    assert (Hd : dispatch mdns_Publish mdns_UnPublish (resource.Action r)
                          (constructRecords cfg r) p0 = Fatal p').
    { rewrite Hrec, Hact, dispatch_app, Hbefore. simpl.
      now rewrite Hne, Hp. }
    split; [exact Hd|]. simpl run. now rewrite Hd.
  - intros resp after H p'.
    assert (Hp : publishRecord mdns_Publish rr p = Continue p')
      by (unfold publishRecord; now rewrite H).
    split; [exact Hp|]. simpl. now rewrite Hne, Hp.
  - intros resp after H p'.
    assert (Hp : unpublishRecord mdns_UnPublish rr p = Continue p')
      by (unfold unpublishRecord; now rewrite H).
    split; [exact Hp|]. simpl. now rewrite Hne, Hp.
Qed.

End DispatcherFacts.

Lemma other_action_dispatches_nothing_witness :
  let p0 := {| responder := ["router.local. 60 IN A 192.168.1.254"]; calls := [] |} in
  run (tablePublish "") (tableUnPublish "") exampleSettings
      [resource.withAction resource.Updated exampleSnapshot] p0
  = Continue p0.
Proof.
  intros p0.
  refine (proj2 (other_action_dispatches_nothing (list string)
                   (tablePublish "") (tableUnPublish "") exampleSettings
                   (resource.withAction resource.Updated exampleSnapshot) [] p0 _ _));
    discriminate.
Defined.

Lemma responder_failure_is_fatal_witness :
  run (tablePublish "foo-kube-system.local. 120 IN A 10.0.0.5") (tableUnPublish "")
      exampleSettings [exampleSnapshot; defaultSnapshot]
      {| responder := []; calls := [] |}
  = Fatal {| responder := ["foo.kube-system.local. 120 IN A 10.0.0.5"];
             calls := [CallPublish "foo.kube-system.local. 120 IN A 10.0.0.5";
                       CallPublish "foo-kube-system.local. 120 IN A 10.0.0.5"] |}.
Proof.
  pose (refused := "foo-kube-system.local. 120 IN A 10.0.0.5").
  pose (p := {| responder := ["foo.kube-system.local. 120 IN A 10.0.0.5"];
                calls := [CallPublish "foo.kube-system.local. 120 IN A 10.0.0.5"] |}).
  assert (Hne : refused <> "") by discriminate.
  destruct (responder_failure_is_fatal (list string)
              (tablePublish refused) (tableUnPublish "") refused p Hne)
    as (Hpub & _).
  destruct (Hpub ["foo.kube-system.local. 120 IN A 10.0.0.5"] "refused" eq_refl)
    as (_ & Hrun).
  refine (proj2 (Hrun exampleSettings exampleSnapshot [defaultSnapshot]
                   ["foo.kube-system.local. 120 IN A 10.0.0.5"]
                   [ "5.0.0.10.in-addr.arpa. 120 IN PTR foo.kube-system.local.";
                     "5.0.0.10.in-addr.arpa. 120 IN PTR foo-kube-system.local." ]
                   {| responder := []; calls := [] |} _ _ _));
    reflexivity.
Defined.

(** ** The order of calls *)

Section CallOrder.

Variable Responder : Type.
Variable mdns_Publish : string -> Responder -> Responder * option string.
Variable mdns_UnPublish : string -> Responder -> Responder * option string.

Lemma isPrefix_nil {A} (l : list A) : isPrefix [] l.
Proof. now exists l. Qed.

Lemma isPrefix_cons {A} (x : A) (p l : list A) :
  isPrefix p l -> isPrefix (x :: p) (x :: l).
Proof. intros [rest ->]. now exists rest. Qed.

Lemma isPrefix_app {A} (l p m : list A) : isPrefix p m -> isPrefix (l ++ p) (l ++ m).
Proof. intros [rest ->]. exists rest. now rewrite app_assoc. Qed.

Lemma isPrefix_weaken {A} (p l m : list A) : isPrefix p l -> isPrefix p (l ++ m).
Proof. intros [rest ->]. exists (rest ++ m). now rewrite app_assoc. Qed.

(** The calls made while dispatching the records of one resource are
    a prefix of [callsFor], and all of it unless a call fails. *)
Lemma dispatch_calls action records :
  forall p : process Responder,
  exists done,
    calls (processOf (dispatch mdns_Publish mdns_UnPublish action records p))
    = calls p ++ done
    /\ isPrefix done (callsFor action records)
    /\ (forall p', dispatch mdns_Publish mdns_UnPublish action records p
                   = Continue p' -> done = callsFor action records).
Proof.
  unfold callsFor.
  induction records as [|record records IH]; intros p.
  - exists []. simpl. rewrite app_nil_r.
    repeat split; auto using isPrefix_nil.
    destruct (String.eqb action resource.Added);
      [|destruct (String.eqb action resource.Deleted)]; reflexivity.
  - simpl dispatch. unfold nonEmpty. simpl filter. fold (nonEmpty records).
    destruct (String.eqb record "") eqn:Hrec; simpl negb; cbv iota; [apply IH|].
    destruct (String.eqb action resource.Added).
    + rewrite publishRecord_outcome. cbv zeta.
      destruct (snd (mdns_Publish record (responder p))).
      * exists [CallPublish record]. simpl. repeat split.
        -- apply isPrefix_cons, isPrefix_nil.
        -- discriminate.
      * simpl andThen.
        destruct (IH {| responder := fst (mdns_Publish record (responder p));
                        calls := calls p ++ [CallPublish record] |})
          as (done & Hc & Hp & Hall).
        exists (CallPublish record :: done). simpl in Hc |- *. repeat split.
        -- rewrite Hc, <- app_assoc. reflexivity.
        -- now apply isPrefix_cons.
        -- intros p' E. f_equal. now apply (Hall p').
    + destruct (String.eqb action resource.Deleted); [|apply IH].
      rewrite unpublishRecord_outcome. cbv zeta.
      destruct (snd (mdns_UnPublish record (responder p))).
      * exists [CallUnPublish record]. simpl. repeat split.
        -- apply isPrefix_cons, isPrefix_nil.
        -- discriminate.
      * simpl andThen.
        destruct (IH {| responder := fst (mdns_UnPublish record (responder p));
                        calls := calls p ++ [CallUnPublish record] |})
          as (done & Hc & Hp & Hall).
        exists (CallUnPublish record :: done). simpl in Hc |- *. repeat split.
        -- rewrite Hc, <- app_assoc. reflexivity.
        -- now apply isPrefix_cons.
        -- intros p' E. f_equal. now apply (Hall p').
Qed.

(** The same for the consumer loop over the received resources. *)
Lemma run_calls cfg received :
  forall p : process Responder,
  exists done,
    calls (processOf (run mdns_Publish mdns_UnPublish cfg received p))
    = calls p ++ done
    /\ isPrefix done (flat_map (callsOf cfg) received)
    /\ (forall p', run mdns_Publish mdns_UnPublish cfg received p = Continue p' ->
                   done = flat_map (callsOf cfg) received).
Proof.
  induction received as [|r received IH]; intros p.
  - exists []. simpl. rewrite app_nil_r. auto using isPrefix_nil.
  - simpl run. simpl flat_map. unfold callsOf at 1 3.
    destruct (dispatch_calls (resource.Action r) (constructRecords cfg r) p)
      as (done1 & Hc1 & Hp1 & Hall1).
    destruct (dispatch mdns_Publish mdns_UnPublish (resource.Action r)
                       (constructRecords cfg r) p) as [p1|p1] eqn:Hd.
    + simpl andThen. simpl in Hc1.
      destruct (IH p1) as (done2 & Hc2 & Hp2 & Hall2).
      rewrite (Hall1 p1 eq_refl) in Hc1.
      exists (callsFor (resource.Action r) (constructRecords cfg r) ++ done2).
      repeat split.
      * rewrite Hc2, Hc1, <- app_assoc. reflexivity.
      * now apply isPrefix_app.
      * intros p' E. f_equal. now apply (Hall2 p').
    + simpl andThen. simpl in Hc1 |- *. exists done1. repeat split.
      * exact Hc1.
      * now apply isPrefix_weaken.
      * discriminate.
Qed.

End CallOrder.

Lemma Merge_split {A} (xs1 xs2 ys zs : list A) :
  Merge (xs1 ++ xs2) ys zs ->
  exists ys1 ys2 zs1 zs2,
    ys = ys1 ++ ys2 /\ zs = zs1 ++ zs2 /\ Merge xs1 ys1 zs1 /\ Merge xs2 ys2 zs2.
Proof.
  intros H. remember (xs1 ++ xs2) as xs eqn:E. revert xs1 E.
  induction H as [|x xs ys zs H IH|y xs ys zs H IH]; intros xs1 E.
  - symmetry in E. apply app_eq_nil in E. destruct E as [-> ->].
    exists [], [], [], []. repeat split; constructor.
  - destruct xs1 as [|x1 xs1]; simpl in E.
    + subst xs2. exists [], ys, [], (x :: zs).
      repeat split; [constructor|now constructor].
    + injection E as <- ->.
      destruct (IH xs1 eq_refl) as (ys1 & ys2 & zs1 & zs2 & -> & -> & H1 & H2).
      exists ys1, ys2, (x :: zs1), zs2. repeat split; [now constructor|assumption].
  - destruct (IH xs1 E) as (ys1 & ys2 & zs1 & zs2 & -> & -> & H1 & H2).
    exists (y :: ys1), ys2, (y :: zs1), zs2. repeat split; [now constructor|assumption].
Qed.

Lemma Merge_alone {A} (xs : list A) : Merge xs [] xs.
Proof. induction xs; now constructor. Qed.

(** ** The ingress adapter *)

Section IngressFacts.

Variable tld_Parse : string -> option tld.URL.

Lemma ipFields_fold (lbs : list v1.IngressLoadBalancerIngress) (acc : list string) :
  fold_left (fun ipFields lb =>
               if negb (String.eqb (v1.IP lb) "")
               then ipFields ++ [v1.IP lb] else ipFields) lbs acc
  = acc ++ nonEmpty (map v1.IP lbs).
Proof.
  revert acc. induction lbs as [|lb lbs IH]; intros acc; simpl.
  - now rewrite app_nil_r.
  - rewrite IH. destruct (String.eqb (v1.IP lb) ""); simpl; [reflexivity|].
    now rewrite <- app_assoc.
Qed.


Lemma buildRecords_rule_fold ingress action ipFields rules :
  forall records r,
    incl rules (v1.Rules ingress) ->
    In r (fold_left (buildRecords_rule tld_Parse ingress action ipFields)
                    rules records) ->
    In r records \/ builtFrom tld_Parse ingress action ipFields r.
Proof.
  induction rules as [|rule rules IH]; intros records r Hincl; simpl.
  - now left.
  - intros Hin. apply IH in Hin; [|intros x Hx; apply Hincl; now right].
    destruct Hin as [Hin|Hin]; [|now right].
    unfold buildRecords_rule in Hin.
    destruct (String.eqb (v1.Host rule) "") eqn:Hhost; cbn [orb negb] in Hin;
      [now left|].
    destruct (HasSuffix (v1.Host rule) ".local") eqn:Hsuf; cbn [orb negb] in Hin;
      [|now left].
    destruct (tld_Parse ("http://" +++ v1.Host rule)) as [parsedHost|] eqn:Hp;
      [|now left].
    apply in_app_or in Hin. destruct Hin as [Hin|[<-|[]]]; [now left|].
    right. exists rule, parsedHost. repeat split; try assumption.
    + apply Hincl. now left.
    + now apply String.eqb_neq.
Qed.

Lemma buildRecords_built obj action r :
  In r (fst (buildRecords tld_Parse obj action)) ->
  exists ingress,
    obj = IngressObject ingress
    /\ nonEmpty (map v1.IP (v1.LoadBalancer ingress)) <> []
    /\ builtFrom tld_Parse ingress action
                 (nonEmpty (map v1.IP (v1.LoadBalancer ingress))) r.
Proof.
  destruct obj as [ingress|]; [|simpl; contradiction].
  unfold buildRecords. rewrite ipFields_fold. simpl app.
  destruct (nonEmpty (map v1.IP (v1.LoadBalancer ingress))) as [|ip ips] eqn:Hips;
    cbn [List.length Nat.eqb fst]; [simpl; contradiction|].
  intros Hin. apply buildRecords_rule_fold in Hin; [|apply incl_refl].
  destruct Hin as [[]|Hin].
  exists ingress. rewrite Hips. split; [reflexivity|]. split; [discriminate|assumption].
Qed.



End IngressFacts.



(** ** Updates: retract, then publish *)

Lemma constructRecords_withAction cfg action r :
  constructRecords cfg (resource.withAction action r) = constructRecords cfg r.
Proof. reflexivity. Qed.

Section UpdateOrder.

Variable tld_Parse : string -> option tld.URL.
Variable Responder : Type.
Variable mdns_Publish : string -> Responder -> Responder * option string.
Variable mdns_UnPublish : string -> Responder -> Responder * option string.

(** C7: on an update the adapter sends the resources built from the
    old object, marked Deleted, and after them the resources built
    from the new object, marked Added.  Whatever other producers send
    in between, the arrival sequence splits into a first part with
    all the Deleted ones and a second part with all the Added ones;
    the consumer makes the calls of the first part, in order, then the
    calls of the second part, stopping at the first call that fails.
    The calls of the Deleted resources are unpublish calls for their
    records and the calls of the Added ones are publish calls, so
    every retraction of the old state precedes every publication of
    the new one. *)
Theorem update_retracts_before_publishing (cfg : config.Settings)
        (oldObj newObj : object) (others received : list resource.Resource)
        (p : process Responder) :
  Merge (onUpdate tld_Parse oldObj newObj) others received ->
  let retracted := map (resource.withAction resource.Deleted)
                       (fst (buildRecords tld_Parse oldObj resource.Updated)) in
  let published := map (resource.withAction resource.Added)
                       (fst (buildRecords tld_Parse newObj resource.Updated)) in
  onUpdate tld_Parse oldObj newObj = retracted ++ published
  /\ (forall d, In d retracted ->
                callsOf cfg d = map CallUnPublish (nonEmpty (constructRecords cfg d)))
  /\ (forall a, In a published ->
                callsOf cfg a = map CallPublish (nonEmpty (constructRecords cfg a)))
  /\ exists first second others1 others2 done,
      received = first ++ second
      /\ others = others1 ++ others2
      /\ Merge retracted others1 first
      /\ Merge published others2 second
      /\ calls (processOf (run mdns_Publish mdns_UnPublish cfg received p))
         = calls p ++ done
      /\ isPrefix done (flat_map (callsOf cfg) first ++ flat_map (callsOf cfg) second)
      /\ (forall p', run mdns_Publish mdns_UnPublish cfg received p = Continue p' ->
                     done = flat_map (callsOf cfg) first
                            ++ flat_map (callsOf cfg) second).
Proof.
  intros Hmerge retracted published.
  split; [reflexivity|]. split; [|split].
  - intros d Hd. apply in_map_iff in Hd. destruct Hd as (r & <- & _). reflexivity.
  - intros a Ha. apply in_map_iff in Ha. destruct Ha as (r & <- & _). reflexivity.
  - change (onUpdate tld_Parse oldObj newObj) with (retracted ++ published) in Hmerge.
    destruct (Merge_split _ _ _ _ Hmerge)
      as (others1 & others2 & first & second & Hoth & Hrec & H1 & H2).
    destruct (run_calls Responder mdns_Publish mdns_UnPublish cfg received p)
      as (done & Hc & Hp & Hall).
    exists first, second, others1, others2, done.
    rewrite <- flat_map_app, <- Hrec. repeat split; assumption.
Qed.

End UpdateOrder.

Lemma update_retracts_before_publishing_witness :
  let oldObj := ingressOf ["app.local"] ["10.0.0.5"] in
  let newObj := ingressOf ["app.local"] ["10.0.0.6"] in
  let p0 := {| responder := @nil string; calls := [] |} in
  exists first second others1 others2 done,
    onUpdate goTldParse oldObj newObj = first ++ second
    /\ [] = others1 ++ others2
    /\ Merge (map (resource.withAction resource.Deleted)
                  (fst (buildRecords goTldParse oldObj resource.Updated)))
             others1 first
    /\ Merge (map (resource.withAction resource.Added)
                  (fst (buildRecords goTldParse newObj resource.Updated)))
             others2 second
    /\ calls (processOf
                (run (tablePublish "") (tableUnPublish "") exampleSettings
                     (onUpdate goTldParse oldObj newObj) p0))
       = calls p0 ++ done
    /\ isPrefix done (flat_map (callsOf exampleSettings) first
                      ++ flat_map (callsOf exampleSettings) second).
Proof.
  intros oldObj newObj p0.
  destruct (update_retracts_before_publishing goTldParse (list string)
              (tablePublish "") (tableUnPublish "") exampleSettings
              oldObj newObj [] (onUpdate goTldParse oldObj newObj) p0
              (Merge_alone _))
    as (_ & _ & _ & first & second & others1 & others2 & done
        & Hrec & Hoth & H1 & H2 & Hc & Hp & _).
  exists first, second, others1, others2, done.
  repeat split; assumption.
Defined.

Example update_call_order :
  calls (processOf
           (run (tablePublish "") (tableUnPublish "") exampleSettings
                (onUpdate goTldParse (ingressOf ["app.local"] ["10.0.0.5"])
                                     (ingressOf ["app.local"] ["10.0.0.6"]))
                {| responder := []; calls := [] |}))
  = map CallUnPublish
        [ "app.web.local. 120 IN A 10.0.0.5"; "app-web.local. 120 IN A 10.0.0.5";
          "5.0.0.10.in-addr.arpa. 120 IN PTR app.web.local.";
          "5.0.0.10.in-addr.arpa. 120 IN PTR app-web.local.";
          "app.local. 120 IN A 10.0.0.5";
          "5.0.0.10.in-addr.arpa. 120 IN PTR app.local." ]
    ++ map CallPublish
        [ "app.web.local. 120 IN A 10.0.0.6"; "app-web.local. 120 IN A 10.0.0.6";
          "6.0.0.10.in-addr.arpa. 120 IN PTR app.web.local.";
          "6.0.0.10.in-addr.arpa. 120 IN PTR app-web.local.";
          "app.local. 120 IN A 10.0.0.6";
          "6.0.0.10.in-addr.arpa. 120 IN PTR app.local." ].
Proof. reflexivity. Qed.


(* ================================================================== *)
(** * Part III: further properties of the code *)
(* ================================================================== *)

(** ** The synthesizer: sizes, empty output, composition *)

Lemma filter_all {A} (f : A -> bool) (l : list A) :
  Forall (fun x => f x = true) l -> filter f l = l.
Proof.
  induction 1 as [|x l Hx _ IH]; simpl; [reflexivity|]. now rewrite Hx, IH.
Qed.

Lemma addressRecord_nonempty host ttl rtype rdata :
  String.eqb (addressRecord host ttl rtype rdata) "" = false.
Proof. unfold addressRecord. apply append_nonempty. discriminate. Qed.

Lemma pointerRecord_nonempty zone ttl host :
  String.eqb (pointerRecord zone ttl host) "" = false.
Proof. unfold pointerRecord. apply append_nonempty. discriminate. Qed.

Lemma recordsOfAddress_nonempty cfg r unq resourceIP :
  Forall (fun record => negb (String.eqb record "") = true)
         (recordsOfAddress cfg r unq resourceIP).
Proof.
  apply Forall_forall. intros rec Hrec. unfold recordsOfAddress in Hrec.
  destruct (publishable cfg resourceIP) as [ip|]; [|contradiction].
  cbv zeta in Hrec. apply block_of_name in Hrec.
  destruct Hrec as (name & _ & Hrec). simpl in Hrec.
  repeat (destruct Hrec as [<-|Hrec];
          [first [now rewrite addressRecord_nonempty
                 |now rewrite pointerRecord_nonempty]|]).
  contradiction.
Qed.

Lemma constructRecords_all_nonempty cfg r :
  Forall (fun record => negb (String.eqb record "") = true) (constructRecords cfg r).
Proof.
  rewrite constructRecords_shape.
  induction (resource.IPs r) as [|a ips IH]; simpl; [constructor|].
  apply Forall_app. split; [apply recordsOfAddress_nonempty|exact IH].
Qed.

Lemma callsOf_added cfg r :
  resource.Action r = resource.Added ->
  callsOf cfg r = map CallPublish (constructRecords cfg r).
Proof.
  intros Ha. unfold callsOf, callsFor. rewrite Ha, String.eqb_refl.
  f_equal. apply filter_all. apply constructRecords_all_nonempty.
Qed.

Lemma constructRecords_never_empty_lines cfg r :
  callsOf cfg (resource.withAction resource.Added r)
  = map CallPublish (constructRecords cfg r)
  /\ callsOf cfg (resource.withAction resource.Deleted r)
     = map CallUnPublish (constructRecords cfg r).
Proof.
  assert (Hne : nonEmpty (constructRecords cfg r) = constructRecords cfg r)
    by (apply filter_all; apply constructRecords_all_nonempty).
  split; unfold callsOf; rewrite constructRecords_withAction; unfold callsFor;
    simpl; now rewrite Hne.
Qed.

(** X1: no record that [constructRecords] returns is the empty string,
    whatever the names, the namespace and the addresses are; the test
    for an empty record in the consumer loop therefore skips nothing,
    and the calls for an Added (Deleted) resource are the publications
    (retractions) of all its records, in order. *)
Theorem constructRecords_never_empty_line (cfg : config.Settings)
        (r : resource.Resource) :
  Forall (fun record => String.eqb record "" = false) (constructRecords cfg r)
  /\ nonEmpty (constructRecords cfg r) = constructRecords cfg r
  /\ callsOf cfg (resource.withAction resource.Added r)
     = map CallPublish (constructRecords cfg r)
  /\ callsOf cfg (resource.withAction resource.Deleted r)
     = map CallUnPublish (constructRecords cfg r).
Proof.
  pose proof (constructRecords_all_nonempty cfg r) as Hall.
  assert (Hne : nonEmpty (constructRecords cfg r) = constructRecords cfg r)
    by (apply filter_all; exact Hall).
  split; [|split; [exact Hne|split]].
  - eapply Forall_impl; [|exact Hall]. intros rec H. simpl in H.
    now destruct (String.eqb rec "").
  - unfold callsOf. rewrite constructRecords_withAction. unfold callsFor.
    simpl. now rewrite Hne.
  - unfold callsOf. rewrite constructRecords_withAction. unfold callsFor.
    simpl. now rewrite Hne.
Qed.

Lemma flat_map_length_const {A B} (f : A -> list B) (k : nat) (l : list A) :
  (forall a, List.length (f a) = k) ->
  List.length (flat_map f l) = (List.length l * k)%nat.
Proof.
  intros H. induction l as [|a l IH]; simpl; [reflexivity|].
  rewrite length_app, H, IH. lia.
Qed.

Lemma recordsOfAddress_length cfg r unq resourceIP :
  List.length (recordsOfAddress cfg r unq resourceIP)
  = if isPublishable cfg resourceIP
    then (List.length (resource.Names r) * (if unq then 6 else 4))%nat
    else 0%nat.
Proof.
  unfold recordsOfAddress, isPublishable.
  destruct (publishable cfg resourceIP) as [ip|]; [|reflexivity].
  cbv zeta. rewrite length_app.
  rewrite (flat_map_length_const _ 4) by reflexivity.
  destruct unq.
  - rewrite (flat_map_length_const _ 2) by reflexivity. lia.
  - simpl. lia.
Qed.

Lemma constructRecords_length cfg r :
  List.length (constructRecords cfg r)
  = (publishableCount cfg (resource.IPs r) * List.length (resource.Names r)
     * (if publishUnqualified cfg r then 6 else 4))%nat.
Proof.
  rewrite constructRecords_shape. unfold publishableCount.
  induction (resource.IPs r) as [|a ips IH]; simpl; [reflexivity|].
  rewrite length_app, IH, recordsOfAddress_length.
  destruct (isPublishable cfg a); simpl; lia.
Qed.

(** X2: the number of records is the number of entries of [ips] that
    parse and belong to an exposed family, times the number of names,
    times six when the unqualified names are published and four
    otherwise; entries are neither merged nor deduplicated. *)
Theorem constructRecords_count (cfg : config.Settings) (r : resource.Resource) :
  List.length (constructRecords cfg r)
  = (publishableCount cfg (resource.IPs r) * List.length (resource.Names r)
     * (if publishUnqualified cfg r then 6 else 4))%nat.
Proof. apply constructRecords_length. Qed.

(** X3: [constructRecords] returns no record exactly when the snapshot
    has no name or none of its addresses parses to an exposed family
    (in particular when [ips] is empty). *)
Theorem constructRecords_empty_iff (cfg : config.Settings) (r : resource.Resource) :
  constructRecords cfg r = []
  <-> resource.Names r = [] \/ publishableCount cfg (resource.IPs r) = 0%nat.
Proof.
  rewrite <- !length_zero_iff_nil, constructRecords_length.
  destruct (publishUnqualified cfg r); nia.
Qed.

Lemma constructRecords_withIPs cfg r ips :
  constructRecords cfg (resource.withIPs ips r)
  = flat_map (recordsOfAddress cfg r (publishUnqualified cfg r)) ips.
Proof. rewrite constructRecords_shape. reflexivity. Qed.

(** X4: the records of a snapshot are the records for its addresses
    taken one after the other: splitting [ips] in two splits the output
    in two, in the same order; an entry that does not parse, or whose
    family is not exposed, contributes nothing wherever it stands. *)
Theorem constructRecords_app (cfg : config.Settings) (r : resource.Resource)
        (ips1 ips2 : list string) :
  constructRecords cfg (resource.withIPs (ips1 ++ ips2) r)
  = constructRecords cfg (resource.withIPs ips1 r)
    ++ constructRecords cfg (resource.withIPs ips2 r)
  /\ forall resourceIP,
      isPublishable cfg resourceIP = false ->
      constructRecords cfg (resource.withIPs (ips1 ++ resourceIP :: ips2) r)
      = constructRecords cfg (resource.withIPs (ips1 ++ ips2) r).
Proof.
  rewrite !constructRecords_withIPs. split; [now rewrite flat_map_app|].
  intros resourceIP Hn. rewrite !constructRecords_withIPs, !flat_map_app.
  simpl flat_map. f_equal.
  pose proof (recordsOfAddress_length cfg r (publishUnqualified cfg r) resourceIP)
    as Hl.
  rewrite Hn in Hl. apply length_zero_iff_nil in Hl. now rewrite Hl.
Qed.

(** ** Addresses: errors, zones, canonical text *)

(** X5: [reverseAddress] fails exactly on the texts [net.ParseIP]
    rejects, and then returns the empty string with an error that
    carries the text; on every other text the error is nil and the
    name is non-empty and ends in the suffix of the address's family. *)
Theorem reverseAddress_result (addr : string) :
  match net.ParseIP addr with
  | None =>
      reverseAddress addr
      = ("", Some {| Err := "unrecognized address"; Name := addr |})
  | Some ip =>
      snd (reverseAddress addr) = None
      /\ String.eqb (fst (reverseAddress addr)) "" = false
      /\ exists labels,
          fst (reverseAddress addr) = labels +++ zoneSuffix (familyOf ip)
  end.
Proof.
  destruct (net.ParseIP addr) as [ip|] eqn:Hp.
  - destruct (reverseAddress_zone _ _ Hp) as [He Hz].
    repeat split; try assumption. now apply reverseAddress_suffix.
  - unfold reverseAddress. now rewrite Hp.
Qed.

Lemma contains_append (c : ascii) (x y : string) :
  net.contains c (x +++ y) = net.contains c x || net.contains c y.
Proof.
  induction x as [|d x IH]; simpl; [reflexivity|]. now rewrite IH, orb_assoc.
Qed.

Lemma contains_percent_decimal (x : Z) :
  octet x -> net.contains "%" (decimal x) = false.
Proof.
  intros Hx.
  assert (Hd : forall n, 0 <= n < 10 -> Ascii.eqb (digitChar n) "%" = false)
    by (intros n Hn; apply digitChar_facts; exact Hn).
  destruct (decimal_digits x Hx); simpl; rewrite ?Hd by lia; reflexivity.
Qed.

Lemma contains_percent_dotted (a b c d : Z) :
  octet a -> octet b -> octet c -> octet d ->
  net.contains "%" (dotted a b c d) = false.
Proof.
  intros Ha Hb Hc Hd. unfold dotted.
  rewrite !contains_append, !contains_percent_decimal by assumption. reflexivity.
Qed.

Lemma ParseIP_rejects_zone (addr : string) :
  net.contains "%" addr = true -> net.ParseIP addr = None.
Proof.
  intros Hz. unfold net.ParseIP.
  destruct (net.firstSep addr) as [c|]; [|reflexivity].
  destruct (Ascii.eqb_spec c "."); [subst c|].
  - destruct (net.parseIPv4 addr) as [v4|] eqn:H4; [|reflexivity].
    apply parseIPv4_canonical in H4.
    destruct H4 as (a & b & c & d & Ha & Hb & Hc & Hd & _ & ->).
    rewrite contains_percent_dotted in Hz by assumption. discriminate Hz.
  - destruct (Ascii.eqb_spec c ":"); [subst c|].
    + unfold net.parseIPv6. now rewrite Hz.
    + destruct c as [[] [] [] [] [] [] [] []]; try reflexivity; exfalso; auto.
Qed.

(** X6: a text with a zone, that is one that contains a percent sign
    (such as fe80::1%eth0), is never an address for the program:
    [reverseAddress] returns its error for it and [constructRecords]
    emits nothing for it. *)
Theorem zoned_address_skipped (addr : string) :
  net.contains "%" addr = true ->
  reverseAddress addr = ("", Some {| Err := "unrecognized address"; Name := addr |})
  /\ forall cfg r, constructRecords cfg (resource.withIPs [addr] r) = [].
Proof.
  intros Hz. apply ParseIP_rejects_zone in Hz. split.
  - unfold reverseAddress. now rewrite Hz.
  - intros cfg r. unfold constructRecords. simpl.
    unfold constructRecords_step. now rewrite Hz.
Qed.

Lemma zoned_address_skipped_witness :
  reverseAddress "fe80::1%eth0"
  = ("", Some {| Err := "unrecognized address"; Name := "fe80::1%eth0" |})
  /\ constructRecords exampleSettings
       (resource.withIPs ["fe80::1%eth0"] exampleSnapshot) = [].
Proof.
  destruct (zoned_address_skipped "fe80::1%eth0" eq_refl) as [Hr Hc].
  split; [exact Hr|apply Hc].
Defined.

Lemma To4_IPv4 (ip p : net.IP) :
  List.length ip = 16%nat ->
  net.To4 ip = Some p ->
  ip = net.IPv4 (nth 12 ip 0) (nth 13 ip 0) (nth 14 ip 0) (nth 15 ip 0).
Proof.
  intros Hl.
  do 16 (destruct ip as [|? ip]; [discriminate Hl|]).
  destruct ip; [|discriminate Hl]. clear Hl.
  unfold net.To4. cbn [List.length Nat.eqb firstn forallb nth andb].
  match goal with |- (if ?b then _ else _) = _ -> _ => destruct b eqn:E end;
    [intros _|discriminate].
  repeat match goal with
         | H : _ && _ = true |- _ => apply andb_prop in H; destruct H
         | H : (_ =? _) = true |- _ => apply Z.eqb_eq in H; subst
         end.
  reflexivity.
Qed.

Lemma String_IPv4 (a b c d : Z) : net.String_ (net.IPv4 a b c d) = dotted a b c d.
Proof.
  change (net.String_ _) with (net.string4 [a; b; c; d]).
  unfold net.string4. simpl nth. rewrite !appendDecimal_append.
  unfold dotted. rewrite !append_assoc. reflexivity.
Qed.

Lemma ParseIP_IPv4_octets (addr : string) (ip p : net.IP) :
  net.ParseIP addr = Some ip ->
  net.To4 ip = Some p ->
  exists a b c d,
    octet a /\ octet b /\ octet c /\ octet d /\ ip = net.IPv4 a b c d.
Proof.
  intros Hp H4. destruct (ParseIP_octets _ _ Hp) as [Hl Hf].
  pose proof (To4_IPv4 _ _ Hl H4) as E.
  exists (nth 12 ip 0), (nth 13 ip 0), (nth 14 ip 0), (nth 15 ip 0).
  assert (Hn : forall n, (n < 16)%nat -> octet (nth n ip 0)).
  { intros n Hn. apply (proj1 (Forall_forall octet ip) Hf). apply nth_In. lia. }
  refine (conj (Hn _ _) (conj (Hn _ _) (conj (Hn _ _) (conj (Hn _ _) E)))); lia.
Qed.

(** X7: for every text the program takes for an IPv4 address, the
    rdata it prints is the dotted decimal form of the address, which
    parses back to the same address and has the same reverse zone; when
    the text is itself in dotted form the rdata is the text, and an
    IPv4-mapped text is published under the dotted form of the embedded
    address. *)
Theorem ipv4_rdata_canonical (addr : string) (ip p : net.IP) :
  net.ParseIP addr = Some ip ->
  net.To4 ip = Some p ->
  exists a b c d,
    octet a /\ octet b /\ octet c /\ octet d
    /\ net.String_ ip = dotted a b c d
    /\ net.ParseIP (net.String_ ip) = Some ip
    /\ reverseAddress (net.String_ ip) = reverseAddress addr
    /\ (net.firstSep addr = Some "."%char -> net.String_ ip = addr).
Proof.
  intros Hp H4.
  destruct (ParseIP_IPv4_octets _ _ _ Hp H4) as (a & b & c & d & Ha & Hb & Hc & Hd & E).
  exists a, b, c, d. subst ip. rewrite String_IPv4.
  refine (conj Ha (conj Hb (conj Hc (conj Hd (conj eq_refl (conj _ (conj _ _))))))).
  - now apply ParseIP_dotted.
  - unfold reverseAddress at 2. rewrite Hp, H4.
    unfold reverseAddress. rewrite ParseIP_dotted by assumption.
    reflexivity.
  - intros Hsep. unfold net.ParseIP in Hp. rewrite Hsep in Hp.
    destruct (net.parseIPv4 addr) as [v4|] eqn:Hv4; [|discriminate].
    apply parseIPv4_canonical in Hv4.
    destruct Hv4 as (a' & b' & c' & d' & _ & _ & _ & _ & -> & ->).
    apply Some_eq in Hp. unfold net.IPv4 in Hp. apply app_inv_head in Hp.
    injection Hp as -> -> -> ->. reflexivity.
Qed.

Lemma ipv4_rdata_canonical_witness :
  exists a b c d,
    octet a /\ octet b /\ octet c /\ octet d
    /\ net.String_ (net.IPv4 10 0 0 5) = dotted a b c d
    /\ net.ParseIP (net.String_ (net.IPv4 10 0 0 5)) = Some (net.IPv4 10 0 0 5)
    /\ reverseAddress (net.String_ (net.IPv4 10 0 0 5))
       = reverseAddress "::ffff:10.0.0.5"
    /\ (net.firstSep "::ffff:10.0.0.5" = Some "."%char ->
        net.String_ (net.IPv4 10 0 0 5) = "::ffff:10.0.0.5").
Proof.
  apply (ipv4_rdata_canonical "::ffff:10.0.0.5" (net.IPv4 10 0 0 5) [10; 0; 0; 5]).
  - vm_compute. reflexivity.
  - reflexivity.
Defined.

(** ** The reverse zone determines the address *)

Lemma append_inv_tail (s : string) : forall a b, a +++ s = b +++ s -> a = b.
Proof.
  induction a as [|x a IH]; intros [|y b] E; simpl in E.
  - reflexivity.
  - exfalso. apply (f_equal String.length) in E. simpl in E.
    rewrite append_length in E. lia.
  - exfalso. apply (f_equal String.length) in E. simpl in E.
    rewrite append_length in E. lia.
  - injection E as -> E. f_equal. now apply IH.
Qed.

Lemma decimal_length (x : Z) : (String.length (decimal x) <= 3)%nat.
Proof.
  unfold decimal, net.appendDecimal.
  destruct (100 <=? x), (10 <=? x); simpl; lia.
Qed.

Lemma dotted_length (a b c d : Z) : (String.length (dotted a b c d) <= 15)%nat.
Proof.
  unfold dotted. rewrite !append_length. simpl String.length.
  pose proof (decimal_length a). pose proof (decimal_length b).
  pose proof (decimal_length c). pose proof (decimal_length d). lia.
Qed.

Lemma hexDigit_code (n : Z) :
  nibble n ->
  byteOf (charAt hexDigit n) = if n <? 10 then 48 + n else 87 + n.
Proof.
  unfold nibble. intros H. rewrite <- (Z2Nat.id n) by lia.
  assert (Hk : (Z.to_nat n < 16)%nat) by lia.
  revert Hk. generalize (Z.to_nat n). clear H. intros k Hk.
  do 16 (destruct k as [|k]; [reflexivity|]). lia.
Qed.

Lemma hexDigit_inj (n m : Z) :
  nibble n -> nibble m -> charAt hexDigit n = charAt hexDigit m -> n = m.
Proof.
  intros Hn Hm E. apply (f_equal byteOf) in E.
  rewrite !hexDigit_code in E by assumption. unfold nibble in *.
  destruct (Z.ltb_spec n 10), (Z.ltb_spec m 10); lia.
Qed.

Lemma nibbleLabels_inj (xs : list Z) :
  forall ys, Forall nibble xs -> Forall nibble ys ->
             nibbleLabels xs = nibbleLabels ys -> xs = ys.
Proof.
  induction xs as [|x xs IH]; intros [|y ys] Hx Hy E; simpl in E;
    try discriminate E; [reflexivity|].
  injection E as Ec E.
  f_equal.
  - apply hexDigit_inj; [exact (Forall_inv Hx)|exact (Forall_inv Hy)|exact Ec].
  - apply IH; [exact (Forall_inv_tail Hx)|exact (Forall_inv_tail Hy)|exact E].
Qed.

Lemma nibbles_inj (xs : list Z) :
  forall ys, nibbles xs = nibbles ys -> xs = ys.
Proof.
  induction xs as [|x xs IH]; intros [|y ys] E; simpl in E;
    try discriminate E; [reflexivity|].
  injection E as Eh El E. f_equal; [|now apply IH].
  rewrite (Z.div_mod x 16), (Z.div_mod y 16) by lia. now rewrite Eh, El.
Qed.

(** X8: two texts that the program accepts and whose reverse zones are
    equal denote the same address, so they also get the same rdata: no
    two different addresses share a PTR owner name. *)
Theorem reverse_zone_identifies_address (addr1 addr2 : string) (ip1 ip2 : net.IP) :
  net.ParseIP addr1 = Some ip1 ->
  net.ParseIP addr2 = Some ip2 ->
  fst (reverseAddress addr1) = fst (reverseAddress addr2) ->
  ip1 = ip2 /\ net.String_ ip1 = net.String_ ip2.
Proof.
  intros H1 H2 E.
  enough (ip1 = ip2) as -> by (split; reflexivity).
  destruct (ParseIP_octets _ _ H1) as [Hl1 Hf1].
  destruct (ParseIP_octets _ _ H2) as [Hl2 Hf2].
  unfold reverseAddress in E. rewrite H1, H2 in E.
  destruct (net.To4 ip1) as [p1|] eqn:T1; destruct (net.To4 ip2) as [p2|] eqn:T2;
    simpl fst in E.
  - destruct (ParseIP_IPv4_octets _ _ _ H1 T1)
      as (a & b & c & d & Ha & Hb & Hc & Hd & ->).
    destruct (ParseIP_IPv4_octets _ _ _ H2 T2)
      as (a' & b' & c' & d' & Ha' & Hb' & Hc' & Hd' & ->).
    simpl nth in E. rewrite !String_IPv4 in E. apply append_inv_tail in E.
    apply (f_equal net.parseIPv4) in E.
    rewrite !parseIPv4_dotted in E by assumption.
    injection E as -> -> -> ->. reflexivity.
  - exfalso.
    destruct (ParseIP_IPv4_octets _ _ _ H1 T1) as (a & b & c & d & _ & _ & _ & _ & ->).
    simpl nth in E. rewrite String_IPv4 in E.
    rewrite reverseAddress_loop_labels, firstn_all in E by lia.
    apply (f_equal String.length) in E.
    rewrite !append_length, nibbleLabels_length, length_rev, nibbles_length, Hl2 in E.
    pose proof (dotted_length d c b a). simpl in E. lia.
  - exfalso.
    destruct (ParseIP_IPv4_octets _ _ _ H2 T2) as (a & b & c & d & _ & _ & _ & _ & ->).
    simpl nth in E. rewrite String_IPv4 in E.
    rewrite reverseAddress_loop_labels, firstn_all in E by lia.
    apply (f_equal String.length) in E.
    rewrite !append_length, nibbleLabels_length, length_rev, nibbles_length, Hl1 in E.
    pose proof (dotted_length d c b a). simpl in E. lia.
  - rewrite !reverseAddress_loop_labels, !firstn_all in E by lia.
    apply append_inv_tail in E.
    apply nibbleLabels_inj in E;
      [|apply Forall_rev; now apply nibbles_range..].
    apply (f_equal (@rev Z)) in E. rewrite !rev_involutive in E.
    now apply nibbles_inj.
Qed.

Lemma reverse_zone_identifies_address_witness :
  net.IPv4 10 0 0 5 = net.IPv4 10 0 0 5
  /\ net.String_ (net.IPv4 10 0 0 5) = net.String_ (net.IPv4 10 0 0 5).
Proof.
  apply (reverse_zone_identifies_address "10.0.0.5" "::ffff:a00:5").
  - reflexivity.
  - vm_compute. reflexivity.
  - vm_compute. reflexivity.
Defined.

(** ** The ingress adapter: one resource per contributing rule *)

Lemma substring_skip (pre : string) :
  forall s m, substring (String.length pre) m (pre +++ s) = substring 0 m s.
Proof. induction pre as [|c pre IH]; intros s m; simpl; [reflexivity|apply IH]. Qed.

Lemma substring_all (s : string) : substring 0 (String.length s) s = s.
Proof. induction s as [|c s IH]; simpl; [reflexivity|]. now rewrite IH. Qed.

Lemma substring_split (s : string) :
  forall n, (n <= String.length s)%nat ->
            s = substring 0 n s +++ substring n (String.length s - n) s.
Proof.
  induction s as [|c s IH]; intros [|n] Hn; simpl in Hn |- *; try lia.
  - reflexivity.
  - now rewrite substring_all.
  - f_equal. apply IH. lia.
Qed.

(** The model of [strings.HasSuffix] says what the function is for. *)
Lemma HasSuffix_iff (s suffix : string) :
  HasSuffix s suffix = true <-> exists pre, s = pre +++ suffix.
Proof.
  unfold HasSuffix. rewrite andb_true_iff, Nat.leb_le, String.eqb_eq. split.
  - intros [Hl E]. exists (substring 0 (String.length s - String.length suffix) s).
    assert (Hk : (String.length s - String.length suffix <= String.length s)%nat) by lia.
    pose proof (substring_split s _ Hk) as H.
    replace (String.length s - (String.length s - String.length suffix))%nat
      with (String.length suffix) in H by lia.
    rewrite E in H. exact H.
  - intros [pre ->]. rewrite append_length. split; [lia|].
    replace (String.length pre + String.length suffix - String.length suffix)%nat
      with (String.length pre) by lia.
    rewrite substring_skip. apply substring_all.
Qed.

Section IngressShape.

Variable tld_Parse : string -> option tld.URL.

Lemma buildRecords_rule_shape ingress action rules :
  forall records,
    fold_left (buildRecords_rule tld_Parse ingress action (loadBalancerIPs ingress))
              rules records
    = records ++ flat_map (snapshotsOfRule tld_Parse ingress action) rules.
Proof.
  induction rules as [|rule rules IH]; intros records; simpl.
  - now rewrite app_nil_r.
  - rewrite IH. unfold buildRecords_rule, snapshotsOfRule, ruleHost.
    destruct (String.eqb (v1.Host rule) "" || negb (HasSuffix (v1.Host rule) ".local")).
    + reflexivity.
    + destruct (tld_Parse ("http://" +++ v1.Host rule)); [|reflexivity].
      now rewrite <- app_assoc.
Qed.

Lemma buildRecords_shape obj action :
  buildRecords tld_Parse obj action
  = (match obj with
     | OtherObject => []
     | IngressObject ingress =>
         match loadBalancerIPs ingress with
         | [] => []
         | _ :: _ => flat_map (snapshotsOfRule tld_Parse ingress action)
                              (v1.Rules ingress)
         end
     end, None).
Proof.
  destruct obj as [ingress|]; [|reflexivity].
  unfold buildRecords. rewrite ipFields_fold. simpl app.
  fold (loadBalancerIPs ingress).
  destruct (loadBalancerIPs ingress) as [|ip ips] eqn:Hips; [reflexivity|].
  cbn [List.length Nat.eqb]. rewrite <- Hips, buildRecords_rule_shape. reflexivity.
Qed.

Lemma buildRecords_action obj action action' :
  fst (buildRecords tld_Parse obj action)
  = map (resource.withAction action) (fst (buildRecords tld_Parse obj action')).
Proof.
  rewrite !buildRecords_shape. simpl fst.
  destruct obj as [ingress|]; [|reflexivity].
  destruct (loadBalancerIPs ingress); [reflexivity|].
  induction (v1.Rules ingress) as [|rule rules IH]; simpl; [reflexivity|].
  rewrite map_app, <- IH. f_equal.
  unfold snapshotsOfRule. now destruct (ruleHost tld_Parse rule).
Qed.

Lemma onAdd_fst obj : onAdd tld_Parse obj = fst (buildRecords tld_Parse obj resource.Added).
Proof. unfold onAdd. now rewrite buildRecords_shape. Qed.

Lemma onDelete_fst obj :
  onDelete tld_Parse obj = fst (buildRecords tld_Parse obj resource.Deleted).
Proof. unfold onDelete. now rewrite buildRecords_shape. Qed.

(** X9: [buildRecords] never returns an error; for an object that is
    not an ingress, or an ingress without a non-empty load-balancer
    address, it returns no resource; otherwise it returns one resource
    for each rule that contributes, in the order of the rules, each with
    all the non-empty load-balancer addresses.  A rule contributes
    exactly when its host ends in .local and [tld.Parse] accepts it (the
    test for an empty host excludes nothing more). *)
Theorem buildRecords_per_rule (obj : object) (action : string) :
  buildRecords tld_Parse obj action
  = (match obj with
     | OtherObject => []
     | IngressObject ingress =>
         match loadBalancerIPs ingress with
         | [] => []
         | _ :: _ => flat_map (snapshotsOfRule tld_Parse ingress action)
                              (v1.Rules ingress)
         end
     end, None)
  /\ forall rule parsedHost,
      ruleHost tld_Parse rule = Some parsedHost
      <-> (exists label, v1.Host rule = label +++ ".local")
          /\ tld_Parse ("http://" +++ v1.Host rule) = Some parsedHost.
Proof.
  split; [apply buildRecords_shape|].
  intros rule parsedHost. unfold ruleHost. rewrite <- HasSuffix_iff.
  destruct (HasSuffix (v1.Host rule) ".local") eqn:Hs.
  - destruct (String.eqb_spec (v1.Host rule) "") as [E|E]; simpl.
    + rewrite E in Hs. discriminate Hs.
    + tauto.
  - rewrite orb_true_r. split; [discriminate|]. intros [H _]. discriminate H.
Qed.

Lemma handlers_agree_lemma obj :
  onDelete tld_Parse obj
  = map (resource.withAction resource.Deleted) (onAdd tld_Parse obj)
  /\ onAdd tld_Parse obj
     = map (resource.withAction resource.Added) (onDelete tld_Parse obj).
Proof.
  rewrite !onAdd_fst, !onDelete_fst. split; apply buildRecords_action.
Qed.

(** X10: the three handlers send the same resources up to the action:
    what [onDelete] sends for an object is what [onAdd] sends for it,
    marked Deleted, and an update sends what [onDelete] sends for the
    old object followed by what [onAdd] sends for the new one. *)
Theorem handlers_agree (oldObj newObj : object) :
  onDelete tld_Parse oldObj
  = map (resource.withAction resource.Deleted) (onAdd tld_Parse oldObj)
  /\ onAdd tld_Parse newObj
     = map (resource.withAction resource.Added) (onDelete tld_Parse newObj)
  /\ onUpdate tld_Parse oldObj newObj
     = onDelete tld_Parse oldObj ++ onAdd tld_Parse newObj.
Proof.
  rewrite !onAdd_fst, !onDelete_fst. unfold onUpdate.
  split; [apply buildRecords_action|]. split; [apply buildRecords_action|].
  now rewrite <- !buildRecords_action.
Qed.

(** X11: a resource built by the ingress adapter is always published
    without the namespace as well, whatever the namespace and the
    policy: it gets six records for each address that parses to an
    exposed family. *)
Theorem ingress_names_unqualified (cfg : config.Settings) (obj : object)
        (action : string) (r : resource.Resource) :
  In r (fst (buildRecords tld_Parse obj action)) ->
  publishUnqualified cfg r = true
  /\ List.length (constructRecords cfg r)
     = (6 * publishableCount cfg (resource.IPs r))%nat.
Proof.
  intros Hin. apply buildRecords_built in Hin.
  destruct Hin as (ingress & _ & _ & rule & parsedHost & _ & _ & _ & _ & ->).
  assert (Hu : forall r', resource.SourceType r' = "ingress" ->
                          publishUnqualified cfg r' = true).
  { intros r' E. unfold publishUnqualified. rewrite E. simpl.
    now rewrite !orb_true_r. }
  split; [now apply Hu|].
  rewrite constructRecords_length, Hu by reflexivity. simpl. lia.
Qed.

End IngressShape.

Lemma ingress_names_unqualified_witness :
  let r := {| resource.SourceType := "ingress"; resource.Action := resource.Added;
              resource.Names := ["app"]; resource.Namespace := "web";
              resource.IPs := ["10.0.0.5"; "fd00::5"];
              resource.WithoutNamespace := false |} in
  publishUnqualified exampleSettings r = true
  /\ List.length (constructRecords exampleSettings r)
     = (6 * publishableCount exampleSettings (resource.IPs r))%nat.
Proof.
  intros r.
  apply (ingress_names_unqualified goTldParse exampleSettings
           (ingressOf ["app.local"] ["10.0.0.5"; "fd00::5"]) resource.Added r).
  simpl. left. reflexivity.
Defined.

(** ** The consumer: what is called, and resuming *)

Section ConsumerFacts.

Variable Responder : Type.
Variable mdns_Publish : string -> Responder -> Responder * option string.
Variable mdns_UnPublish : string -> Responder -> Responder * option string.

Lemma callsOf_warranted cfg received c :
  In c (flat_map (callsOf cfg) received) -> warranted cfg received c.
Proof.
  intros Hin. apply in_flat_map in Hin. destruct Hin as (r & Hr & Hc).
  unfold callsOf, callsFor in Hc.
  destruct (String.eqb_spec (resource.Action r) resource.Added) as [Ea|Ea].
  - apply in_map_iff in Hc. destruct Hc as (rr & <- & Hrr).
    apply filter_In in Hrr. exists r, rr. tauto.
  - destruct (String.eqb_spec (resource.Action r) resource.Deleted) as [Ed|Ed];
      [|contradiction].
    apply in_map_iff in Hc. destruct Hc as (rr & <- & Hrr).
    apply filter_In in Hrr. exists r, rr. tauto.
Qed.

(** X12: whatever the responder answers, the consumer only adds calls
    after those already made, and every call it adds is warranted by a
    received resource: the publication of one of the records of an
    Added resource or the retraction of one of the records of a Deleted
    one.  It never publishes for a Deleted resource nor retracts for an
    Added one, and never calls the responder with a line that was not
    synthesized. *)
Theorem consumer_calls_warranted (cfg : config.Settings)
        (received : list resource.Resource) (p : process Responder) :
  exists added,
    calls (processOf (run mdns_Publish mdns_UnPublish cfg received p))
    = calls p ++ added
    /\ Forall (warranted cfg received) added.
Proof.
  destruct (run_calls Responder mdns_Publish mdns_UnPublish cfg received p)
    as (done & Hc & [rest Hp] & _).
  exists done. split; [exact Hc|].
  apply Forall_forall. intros c Hin. apply callsOf_warranted.
  rewrite Hp. apply in_or_app. now left.
Qed.

(** X13: the consumer has no memory of its own: processing the arrivals
    [first ++ second] is processing [first] and, unless a call failed,
    going on with [second] from the process [first] left; after a
    failure nothing of [second] is processed. *)
Theorem consumer_resumes (cfg : config.Settings)
        (first second : list resource.Resource) (p : process Responder) :
  run mdns_Publish mdns_UnPublish cfg (first ++ second) p
  = match run mdns_Publish mdns_UnPublish cfg first p with
    | Continue p' => run mdns_Publish mdns_UnPublish cfg second p'
    | Fatal p' => Fatal p'
    end.
Proof. rewrite run_app. reflexivity. Qed.

(** X14: when no call fails, adding an ingress and then deleting it
    retracts exactly the lines that were published, in the order in
    which they were published. *)
Theorem delete_retracts_what_add_published (tld_Parse : string -> option tld.URL)
        (cfg : config.Settings) (obj : object) (p p' : process Responder) :
  run mdns_Publish mdns_UnPublish cfg
      (onAdd tld_Parse obj ++ onDelete tld_Parse obj) p = Continue p' ->
  exists published,
    flat_map (callsOf cfg) (onAdd tld_Parse obj) = map CallPublish published
    /\ calls p' = calls p ++ map CallPublish published ++ map CallUnPublish published.
Proof.
  intros Hrun.
  destruct (run_calls Responder mdns_Publish mdns_UnPublish cfg
              (onAdd tld_Parse obj ++ onDelete tld_Parse obj) p)
    as (done & Hc & _ & Hall).
  rewrite Hrun in Hc. simpl in Hc. rewrite (Hall p' Hrun) in Hc. clear Hall Hrun.
  exists (flat_map (constructRecords cfg) (onAdd tld_Parse obj)).
  assert (Hadd : forall rs,
             Forall (fun r => resource.Action r = resource.Added) rs ->
             flat_map (callsOf cfg) rs
             = map CallPublish (flat_map (constructRecords cfg) rs)
             /\ flat_map (callsOf cfg) (map (resource.withAction resource.Deleted) rs)
                = map CallUnPublish (flat_map (constructRecords cfg) rs)).
  { induction 1 as [|r rs Hr _ [IH1 IH2]]; simpl; [split; reflexivity|].
    rewrite !map_app, IH1, IH2.
    destruct (constructRecords_never_empty_lines cfg r) as (Ep & Eu).
    rewrite Eu. split; [|reflexivity]. f_equal.
    now apply callsOf_added. }
  assert (Hacts : Forall (fun r => resource.Action r = resource.Added)
                         (onAdd tld_Parse obj)).
  { apply Forall_forall. intros r Hr. rewrite onAdd_fst in Hr.
    apply buildRecords_built in Hr.
    destruct Hr as (ingress & _ & _ & rule & parsedHost & _ & _ & _ & _ & ->).
    reflexivity. }
  destruct (Hadd _ Hacts) as [E1 E2].
  split; [exact E1|].
  rewrite Hc, flat_map_app, E1.
  rewrite (proj1 (handlers_agree_lemma tld_Parse obj)), E2. reflexivity.
Qed.

End ConsumerFacts.

Lemma delete_retracts_what_add_published_witness :
  let obj := ingressOf ["app.local"] ["10.0.0.5"] in
  let p := {| responder := @nil string; calls := [] |} in
  let p' := processOf (run (tablePublish "") (tableUnPublish "") exampleSettings
                           (onAdd goTldParse obj ++ onDelete goTldParse obj) p) in
  exists published,
    flat_map (callsOf exampleSettings) (onAdd goTldParse obj)
    = map CallPublish published
    /\ calls p' = calls p ++ map CallPublish published ++ map CallUnPublish published.
Proof.
  intros obj p p'.
  apply (delete_retracts_what_add_published (list string)
           (tablePublish "") (tableUnPublish "") goTldParse exampleSettings obj p p').
  vm_compute. reflexivity.
Defined.

(** ** The source list *)

Lemma k8sSource_SetAll_filter (values : list string) :
  forall s, k8sSource_SetAll s values = s ++ filter validSource values.
Proof.
  unfold k8sSource_SetAll.
  induction values as [|value values IH]; intros s; simpl.
  - now rewrite app_nil_r.
  - rewrite IH. unfold k8sSource_Set, validSource.
    destruct (String.eqb value "ingress" || String.eqb value "service"); simpl.
    + now rewrite <- app_assoc.
    + reflexivity.
Qed.

(** X15: [Set] never returns an error and never stores a value other
    than ingress or service: after any sequence of calls the slice is
    what it was, followed by the ingress and service values among those
    given, in the order given and with their repetitions. *)
Theorem k8sSource_Set_keeps_valid (s : k8sSource) (values : list string) :
  (forall value, snd (k8sSource_Set s value) = None)
  /\ k8sSource_SetAll s values = s ++ filter validSource values
  /\ Forall (fun value => value = "ingress" \/ value = "service")
            (k8sSource_SetAll [] values).
Proof.
  split; [|split].
  - intros value. unfold k8sSource_Set.
    now destruct (String.eqb value "ingress" || String.eqb value "service").
  - apply k8sSource_SetAll_filter.
  - rewrite k8sSource_SetAll_filter. simpl. apply Forall_forall.
    intros value Hin. apply filter_In in Hin. destruct Hin as [_ Hv].
    unfold validSource in Hv. apply orb_true_iff in Hv.
    now rewrite !String.eqb_eq in Hv.
Qed.

(** ** Starting the watchers *)

Lemma startWatchers_fold namespace publishInternalServices sources :
  forall started,
    map watcherSource
        (fold_left
           (fun started src =>
              if String.eqb src "ingress"
              then started ++ [IngressWatcher namespace]
              else if String.eqb src "service"
                   then started ++ [ServicesWatcher namespace publishInternalServices]
                   else started)
           sources started)
    = map watcherSource started ++ filter validSource sources.
Proof.
  induction sources as [|src sources IH]; intros started; simpl.
  - now rewrite app_nil_r.
  - rewrite IH. unfold validSource.
    destruct (String.eqb_spec src "ingress") as [->|Hi]; simpl.
    + rewrite map_app, <- app_assoc. reflexivity.
    + destruct (String.eqb_spec src "service") as [->|Hs]; simpl.
      * rewrite map_app, <- app_assoc. reflexivity.
      * reflexivity.
Qed.

(** X16: [run] gives up before starting anything exactly when no source
    is configured or no client could be created; otherwise it starts
    one watcher for every occurrence of ingress or service in the
    setting, in order and without merging repetitions, and silently
    ignores every other name, so that a setting made of unknown names
    only starts nothing and is no error.  The names it acts on are
    those [k8sSource.Set] keeps. *)
Theorem startWatchers_sources (namespace : string) (publishInternalServices : bool)
        (clientCreated : bool) (sources : list string) :
  (startWatchers namespace publishInternalServices clientCreated sources = None
   <-> sources = [] \/ clientCreated = false)
  /\ forall started,
      startWatchers namespace publishInternalServices clientCreated sources
      = Some started ->
      map watcherSource started = filter validSource sources
      /\ map watcherSource started = k8sSource_SetAll [] sources.
Proof.
  unfold startWatchers. split.
  - destruct sources as [|src sources]; simpl; [tauto|].
    destruct clientCreated; simpl; split; try discriminate; try tauto.
    intros [H|H]; discriminate H.
  - intros started.
    destruct (List.length sources =? 0)%nat; [discriminate|].
    destruct (negb clientCreated); [discriminate|].
    intros H. apply Some_eq in H. subst started.
    rewrite startWatchers_fold, k8sSource_SetAll_filter. simpl. now split.
Qed.

(** ** Indexing in [reverseAddress] *)

(** X17: an address returned by [net.ParseIP] has 16 bytes, each in
    0..255, so in [reverseAddress] the accesses [ip[12]] to [ip[15]]
    are within the slice and every index into [hexDigit], [v & 0xF] and
    [v >> 4], is below 16: the function cannot fail on an index. *)
Theorem reverseAddress_indices_in_range (addr : string) (ip : net.IP) :
  net.ParseIP addr = Some ip ->
  List.length ip = 16%nat
  /\ Forall (fun v => octet v /\ nibble (Z.land v 15) /\ nibble (Z.shiftr v 4)) ip.
Proof.
  intros Hp. destruct (ParseIP_octets _ _ Hp) as [Hl Hf]. split; [exact Hl|].
  eapply Forall_impl; [|exact Hf]. intros v Hv. split; [exact Hv|].
  unfold octet in Hv. unfold nibble.
  change 15 with (Z.ones 4). rewrite Z.land_ones, Z.shiftr_div_pow2 by lia.
  change (2 ^ 4) with 16. split; Z.to_euclidean_division_equations; lia.
Qed.

Lemma reverseAddress_indices_in_range_witness :
  List.length (net.IPv4 10 0 0 5) = 16%nat
  /\ Forall (fun v => octet v /\ nibble (Z.land v 15) /\ nibble (Z.shiftr v 4))
            (net.IPv4 10 0 0 5).
Proof.
  apply (reverseAddress_indices_in_range "10.0.0.5"). reflexivity.
Defined.
